(** * Allusion: EXIF tag reconciliation ([src/backend/ExifIO.ts])

    A shallow embedding of [ExifIO.convertMetadataToHierarchy] (the
    normalizer: HierarchicalSubject, Subject and Keywords merged into one list
    of tag paths) and of [ExifIO.writeTags] (the serializer: a list of tag
    paths written back as those three fields), with the JavaScript built-ins
    they call ([String.prototype.split], [Array.prototype.join], [Set],
    [toString]); then of the rest of the class: the separator setting, the
    readers [readTags], [readExifTags] and [readTagsRecursively], the field
    deltas [addTag], [removeTag] and [replaceTag], and the process calls
    [isOpen], [initialize] and [close]. *)

From Stdlib Require Import String Ascii List ZArith Bool Lia DecimalString.
From Stdlib Require Import Permutation.
Import ListNotations.

Local Open Scope string_scope.
Local Open Scope list_scope.

(* ================================================================== *)
(** ** JavaScript values and built-ins *)
(* ================================================================== *)

Module JS.

(** [Number.MAX_SAFE_INTEGER], 2^53 - 1. *)
Definition MAX_SAFE_INTEGER : Z := 9007199254740991.

(** The numbers of the model: the safe integers, those of magnitude at most
    [MAX_SAFE_INTEGER].  Each is a JavaScript number, and each prints as its
    decimal digits. *)
Record safe_integer : Type := {
  int_value : Z;
  int_safe : (Z.abs int_value <=? MAX_SAFE_INTEGER)%Z = true
}.

(** What the metadata reader delivers for one field: nothing, one scalar (a
    string, or a number when the text looked numeric), or an array of
    scalars.  A string is a sequence of code units, here [ascii]. *)
Inductive scalar : Type :=
| JStr (s : string)
| JNum (n : safe_integer).

Inductive value : Type :=
| JUndefined
| JScalar (v : scalar)
| JArray (l : list scalar).

(** The decimal digits of an integer, after a minus sign when it is
    negative. *)
Definition decimal (n : Z) : string := NilZero.string_of_int (Z.to_int n).

(** [v.toString()] *)
Definition toString (v : scalar) : string :=
  match v with
  | JStr s => s
  | JNum n => decimal (int_value n)
  end.

(** Truthiness of a string: every string but the empty one. *)
Definition truthy (s : string) : bool :=
  match s with
  | EmptyString => false
  | String _ _ => true
  end.

(** [a[i]] for an integer index: [undefined] ([None]) out of range. *)
Definition index {A : Type} (a : list A) (i : Z) : option A :=
  if (i <? 0)%Z then None else nth_error a (Z.to_nat i).

(** [a.join(sep)] on an array of strings. *)
Fixpoint join (sep : string) (a : list string) : string :=
  match a with
  | [] => ""
  | [x] => x
  | x :: rest => (x ++ sep ++ join sep rest)%string
  end.

(** [s.split(sep)] for a non-empty [sep], scanning left to right as
    ECMAScript does: [cur] is the text since the last match (the substring
    from p to q of the standard), [skip] counts the code units of a matched
    separator still to pass over. *)
Fixpoint split_scan (sep : string) (skip : nat) (cur : string) (s : string)
  : list string :=
  match s with
  | EmptyString => [cur]
  | String c s' =>
      match skip with
      | S k => split_scan sep k cur s'
      | O =>
          if prefix sep s
          then cur :: split_scan sep (String.length sep - 1) "" s'
          else split_scan sep 0 (cur ++ String c "")%string s'
      end
  end.

(** An empty separator splits between all code units; the empty string
    then gives the empty array. *)
Fixpoint code_units (s : string) : list string :=
  match s with
  | EmptyString => []
  | String c s' => String c "" :: code_units s'
  end.

(** [s.split(sep)] *)
Definition split (s sep : string) : list string :=
  match sep with
  | EmptyString => code_units s
  | String _ _ => split_scan sep 0 "" s
  end.

(** [s.slice(n)] for a natural [n]: [s] without its first [n] code
    units. *)
Fixpoint slice (s : string) (n : nat) {struct n} : string :=
  match n, s with
  | O, _ => s
  | S _, EmptyString => ""
  | S k, String _ s' => slice s' k
  end.

(** [s.endsWith(t)] *)
Fixpoint endsWith (s t : string) : bool :=
  if String.eqb s t then true
  else match s with
       | EmptyString => false
       | String _ s' => endsWith s' t
       end.

(** [new Set(a)] followed by [Array.from]: the elements in insertion
    order, a value being inserted only when it is not there yet. *)
Definition Set_add (seen : list string) (x : string) : list string :=
  if existsb (String.eqb x) seen then seen else seen ++ [x].

Definition Set_from (a : list string) : list string :=
  fold_left Set_add a [].

End JS.

Import JS.

(* ================================================================== *)
(** ** The normalizer: [ExifIO.convertMetadataToHierarchy] *)
(* ================================================================== *)

(** The three fields the application reads of an [exiftool.IMetadata]. *)
Record IMetadata : Type := {
  HierarchicalSubject : value;
  Subject : value;
  Keywords : value
}.

(** [Array.isArray(val) ? val : val?.toString() ? [val.toString()] : []] *)
Definition parseExifFieldAsString (val : value) : list scalar :=
  match val with
  | JArray l => l
  | JScalar v => if truthy (toString v) then [JStr (toString v)] else []
  | JUndefined => []
  end.

(** [h[h.length - 1]] *)
Definition leaf (h : list string) : option string :=
  index h (Z.of_nat (List.length h) - 1).

(** [h[h.length - 1] !== tag] *)
Definition leaf_differs (tag : string) (h : list string) : bool :=
  match leaf h with
  | Some l => negb (String.eqb l tag)
  | None => true
  end.

Section Normalizer.

Variable entry : IMetadata.
Variable separator : string.

Definition tagHierarchy : list scalar :=
    parseExifFieldAsString (HierarchicalSubject entry).
Definition subject : list scalar :=
    parseExifFieldAsString (Subject entry).
Definition keywords : list scalar :=
    parseExifFieldAsString (Keywords entry).

Definition splitHierarchy : list (list string) :=
    map (fun h => split (toString h) separator) tagHierarchy.

Definition allPlainTags : list string :=
    Set_from (map toString subject ++ map toString keywords).

Definition filteredTags : list string :=
    filter (fun tag => forallb (leaf_differs tag) splitHierarchy) allPlainTags.

  (** The value returned; the [console.debug] line before the [return]
      does not touch it. *)
Definition convertMetadataToHierarchy : list (list string) :=
    splitHierarchy ++ map (fun t => [t]) filteredTags.

End Normalizer.

(** The sequence a raw field stands for once both conversions of the source
    have run: [parseExifFieldAsString] and the later [.toString()] of each
    element. *)
Definition coerce (val : value) : list string :=
  map toString (parseExifFieldAsString val).

(* ================================================================== *)
(** ** The serializer: [ExifIO.writeTags] *)
(* ================================================================== *)

(** The [ExifIO] object: its one observable field. *)
Record ExifIO : Type := {
  hierarchicalSeparator : string
}.

(** [localStorage.getItem('hierarchical-separator') || '|'] *)
Definition constructor (stored : option string) : ExifIO :=
  {| hierarchicalSeparator :=
       match stored with
       | Some s => if truthy s then s else "|"
       | None => "|"
       end |}.

(** [setHierarchicalSeparator(val)]: the new object and the item stored. *)
Definition setHierarchicalSeparator (this : ExifIO) (val : string)
  : ExifIO * option string :=
  ({| hierarchicalSeparator := val |}, Some val).

(** The object handed to [ep.writeMetadata]. *)
Module Payload.
Record t : Type := {
    HierarchicalSubject : list string;
    Subject : list (option string);
    Keywords : list (option string)
  }.
End Payload.

(** The reply of the exiftool process. *)
Record WriteReply : Type := {
  error : option string
}.

(** What a call does to the outside world, in order. *)
Inductive event : Type :=
| ConsoleLog (args : list string)
| WriteMetadata (file : string) (data : Payload.t) (args : list string)
| ConsoleError (msg : string) (res : WriteReply).

(** [res.error?.endsWith(suffix)], [undefined] read as false. *)
Definition error_endsWith (res : WriteReply) (suffix : string) : bool :=
  match error res with
  | Some e => endsWith e suffix
  | None => false
  end.

Section Serializer.

  (** The external process: what [ep.writeMetadata] answers. *)
Variable ep_writeMetadata :
    string -> Payload.t -> list string -> WriteReply.

Variable this : ExifIO.

  (** The object literal of the call, lines 183 to 190. *)
Definition writeData (tagNameHierarchy : list (list string)) : Payload.t :=
    let subject := map leaf tagNameHierarchy in
    {| Payload.HierarchicalSubject :=
         map (fun hierarchy => join (hierarchicalSeparator this) hierarchy)
             tagNameHierarchy;
       Payload.Subject := subject;
       Payload.Keywords := subject |}.

Definition writeTags (filepath : string)
             (tagNameHierarchy : list (list string)) : list event :=
    if (Z.of_nat (List.length tagNameHierarchy) =? 0)%Z then []
    else
      let data := writeData tagNameHierarchy in
      let args := ["overwrite_original "] in
      let res := ep_writeMetadata filepath data args in
      [ConsoleLog ["Writing";
                   join ", " (map (join ",") tagNameHierarchy);
                   "to"; filepath];
       WriteMetadata filepath data args]
      ++ (if negb (error_endsWith res "1 image files updated")
          then [ConsoleError "Could not update file metadata" res]
          else []).

End Serializer.

(* ================================================================== *)
(** ** Vocabulary of the statements

    None of what follows is code of [ExifIO.ts]: these are the notions
    the properties below are stated with. *)
(* ================================================================== *)

(** The writes among the events of a call. *)
Fixpoint writes (tr : list event) : list (string * Payload.t) :=
  match tr with
  | [] => []
  | WriteMetadata f d _ :: tr' => (f, d) :: writes tr'
  | _ :: tr' => writes tr'
  end.

(** Reading a written payload back as a metadata entry: each field an array
    of the strings written.  There is no entry for a payload that holds
    [undefined]. *)
Fixpoint defined (a : list (option string)) : option (list string) :=
  match a with
  | [] => Some []
  | None :: _ => None
  | Some x :: a' =>
      match defined a' with
      | Some r => Some (x :: r)
      | None => None
      end
  end.

Definition readBack (data : Payload.t) : option IMetadata :=
  match defined (Payload.Subject data), defined (Payload.Keywords data) with
  | Some s, Some k =>
      Some {| HierarchicalSubject :=
                JArray (map JStr (Payload.HierarchicalSubject data));
              Subject := JArray (map JStr s);
              Keywords := JArray (map JStr k) |}
  | _, _ => None
  end.

(** An exiftool that reports success. *)
Definition ep_ok (_ : string) (_ : Payload.t) (_ : list string) : WriteReply :=
  {| error := Some "    1 image files updated" |}.

(** How a call ends: with a value, or with an exception thrown.  Neither
    function has a [throw], and no built-in they call throws on these
    values, so both calls end with a value. *)
Inductive completion (A : Type) : Type :=
| Normal (a : A)
| Throw (err : string).
Arguments Normal {A} a.
Arguments Throw {A} err.

Definition call_convertMetadataToHierarchy (entry : IMetadata)
           (separator : string) : completion (list (list string)) :=
  Normal (convertMetadataToHierarchy entry separator).

Definition call_writeTags
           (ep : string -> Payload.t -> list string -> WriteReply)
           (this : ExifIO) (filepath : string)
           (tagNameHierarchy : list (list string)) : completion (list event) :=
  Normal (writeTags ep this filepath tagNameHierarchy).

(** [s.includes(t)]: [t] occurs in [s]. *)
Fixpoint includes (s t : string) : bool :=
  prefix t s
  || match s with
     | EmptyString => false
     | String _ s' => includes s' t
     end.

(** The data model's well-formed path: at least one segment, none empty. *)
Definition wf_path (p : list string) : Prop :=
  p <> [] /\ Forall (fun seg => seg <> "") p.

(** The specification's reading of a deduplicated sequence: first
    occurrences only, in the order given.  [Set_from] above is the code's. *)
Fixpoint distinct (a : list string) : list string :=
  match a with
  | [] => []
  | x :: r => x :: filter (fun y => negb (String.eqb y x)) (distinct r)
  end.

Definition mem (x : string) (a : list string) : bool :=
  existsb (String.eqb x) a.

(** A raw field that is absent or empty: [undefined], the empty string or
    the empty array. *)
Definition absent_or_empty (v : value) : Prop :=
  v = JUndefined \/ v = JScalar (JStr "") \/ v = JArray [].

(** Feeding what a call of [writeTags] wrote back through the normalizer,
    with the separator of the same object: one result for each write. *)
Definition renormalize
           (ep : string -> Payload.t -> list string -> WriteReply)
           (this : ExifIO) (filepath : string)
           (tagNameHierarchy : list (list string))
  : list (option (list (list string))) :=
  map (fun w =>
         option_map
           (fun e => convertMetadataToHierarchy e (hierarchicalSeparator this))
           (readBack (snd w)))
      (writes (writeTags ep this filepath tagNameHierarchy)).

(* ================================================================== *)
(** ** The readers: [readTags], [readExifTags], [readTagsRecursively] *)
(* ================================================================== *)

(** An entry of a reply: an object; a property it does not have reads
    [undefined]. *)
Definition MetadataEntry : Type := string -> value.

(** The reply of [ep.readMetadata]. *)
Module ReadReply.
Record t : Type := {
    data : option (list MetadataEntry);
    error : option string
  }.
End ReadReply.

(** [entry.HierarchicalSubject], [entry.Subject], [entry.Keywords] *)
Definition fieldsOf (entry : MetadataEntry) : IMetadata :=
  {| HierarchicalSubject := entry "HierarchicalSubject";
     Subject := entry "Subject";
     Keywords := entry "Keywords" |}.

(** [x || undefined] on a string or [undefined]: the string when truthy. *)
Definition truthy_text (x : option string) : option string :=
  match x with
  | Some s => if truthy s then Some s else None
  | None => None
  end.

(** [metadata.data?.[0]] *)
Definition first_entry (metadata : ReadReply.t) : option MetadataEntry :=
  match ReadReply.data metadata with
  | Some a => index a 0
  | None => None
  end.

(** The guard of the three readers,
    [if (metadata.error || !metadata.data?.[0])
       throw new Error(metadata.error || msg)],
    and [metadata.data[0]] past it. *)
Definition entryOrThrow (metadata : ReadReply.t) (msg : string)
  : completion MetadataEntry :=
  match truthy_text (ReadReply.error metadata), first_entry metadata with
  | Some e, _ => Throw e
  | None, None => Throw msg
  | None, Some entry => Normal entry
  end.

(** [val?.toString()] on a field value; an array prints its elements with
    commas between. *)
Definition value_toString (val : value) : option string :=
  match val with
  | JUndefined => None
  | JScalar v => Some (toString v)
  | JArray l => Some (join "," (map toString l))
  end.

Section Reader.

(** The external process: what [ep.readMetadata] answers. *)
Variable ep_readMetadata : string -> list string -> ReadReply.t.

Variable this : ExifIO.

Definition readTags (filepath : string) : completion (list (list string)) :=
  let metadata :=
    ep_readMetadata filepath ["HierarchicalSubject"; "Subject"; "Keywords"] in
  match entryOrThrow metadata "No metadata entry" with
  | Throw e => Throw e
  | Normal entry =>
      Normal (convertMetadataToHierarchy (fieldsOf entry)
                (hierarchicalSeparator this))
  end.

Definition readExifTags (filepath : string) (tags : list string)
  : completion (list (option string)) :=
  let metadata := ep_readMetadata filepath tags in
  match entryOrThrow metadata "No metadata entry" with
  | Throw e => Throw e
  | Normal entry =>
      Normal (map (fun t => truthy_text (value_toString (entry t))) tags)
  end.

Definition readTagsRecursively (directory : string)
  : completion (list (list string)) :=
  let metadata :=
    ep_readMetadata directory
      ["HierarchicalSubject"; "Subject"; "Keywords"; "r"] in
  match entryOrThrow metadata "No metadata entries found" with
  | Throw e => Throw e
  | Normal entry =>
      Normal (convertMetadataToHierarchy (fieldsOf entry)
                (hierarchicalSeparator this))
  end.

End Reader.

(* ================================================================== *)
(** ** The field deltas: [addTag], [removeTag], [replaceTag] *)
(* ================================================================== *)

(** The double quote, as a string. *)
Definition dquote : string := String "034"%char "".

(** [files.map((filePath) => `"${filePath}"`).join(' ')] *)
Definition quoteFiles (files : list string) : string :=
  join " " (map (fun filePath => (dquote ++ filePath ++ dquote)%string) files).

(** The object of a delta write: its keys, in order, with their values. *)
Definition DeltaData : Type := list (string * list string).

Inductive delta_event : Type :=
| DeltaWrite (command : string) (data : DeltaData) (args : list string)
| DeltaError (msg : string) (res : WriteReply).

(** [`${n} image files updated`], [n] being the length of an array. *)
Definition filesUpdated (n : nat) : string :=
  (decimal (Z.of_nat n) ++ " image files updated")%string.

Section Deltas.

Variable ep_writeMetadata : string -> DeltaData -> list string -> WriteReply.

(** The body the three share: one write, then the check of the reply. *)
Definition writeDelta (files : list string) (data : DeltaData)
  : list delta_event :=
  let command := quoteFiles files in
  let args := ["overwrite_original "] in
  let res := ep_writeMetadata command data args in
  DeltaWrite command data args
    :: (if negb (error_endsWith res (filesUpdated (List.length files)))
        then [DeltaError "Could not update file metadata" res]
        else []).

Definition addTag (files : list string) (tagHierarchy : list string)
  : list delta_event :=
  writeDelta files [("MyHS+", tagHierarchy)].

Definition removeTag (files : list string) (tagHierarchy : list string)
  : list delta_event :=
  writeDelta files [("MyHS-", tagHierarchy)].

Definition replaceTag (files : list string)
           (oldTagHierarchy newTagHierarchy : list string)
  : list delta_event :=
  writeDelta files [("MyHS-", oldTagHierarchy); ("MyHS+", newTagHierarchy)].

End Deltas.

(* ================================================================== *)
(** ** The process: [isOpen], [initialize], [close] *)
(* ================================================================== *)

(** The exiftool process object [ep]: its [_open] flag, [undefined] until
    the library sets it. *)
Record Process : Type := {
  _open : option bool
}.

(** Truthiness of [ep._open]. *)
Definition open_flag (ep : Process) : bool :=
  match _open ep with
  | Some b => b
  | None => false
  end.

Inductive process_event : Type :=
| EpOpen
| EpClose
| Console (text : string) (pid : option Z).

Section Lifecycle.

(** The library's [ep.open()], giving the process afterwards and its pid,
    and [ep.close()]. *)
Variable ep_open : Process -> Process * Z.
Variable ep_close : Process -> Process.

(** [ep._open || false] *)
Definition isOpen (ep : Process) : bool := open_flag ep || false.

Definition initialize (ep : Process) : Process * list process_event :=
  if open_flag ep then (ep, [])
  else
    let (ep', pid) := ep_open ep in
    (ep', [EpOpen; Console "Started exiftool process %s" (Some pid)]).

Definition close (ep : Process) : Process * list process_event :=
  if open_flag ep
  then (ep_close ep,
        [Console "Closing Exiftool..." None; EpClose;
         Console "Closed Exiftool" None])
  else (ep, []).

End Lifecycle.

(* ================================================================== *)
(** ** More vocabulary *)
(* ================================================================== *)

(** A reply that holds entries and no error. *)
Definition reply_of (entries : list MetadataEntry) : ReadReply.t :=
  {| ReadReply.data := Some entries; ReadReply.error := None |}.

(** An entry object with the three fields of [fields] and nothing else. *)
Definition entry_of (fields : IMetadata) : MetadataEntry :=
  fun key =>
    if String.eqb key "HierarchicalSubject" then HierarchicalSubject fields
    else if String.eqb key "Subject" then Subject fields
    else if String.eqb key "Keywords" then Keywords fields
    else JUndefined.

(** The writes among the events of a delta call. *)
Fixpoint delta_writes (tr : list delta_event) : list (string * DeltaData) :=
  match tr with
  | [] => []
  | DeltaWrite command data _ :: tr' => (command, data) :: delta_writes tr'
  | DeltaError _ _ :: tr' => delta_writes tr'
  end.

(** Whether a call logged that the update failed. *)
Definition delta_failed (tr : list delta_event) : bool :=
  existsb (fun ev => match ev with DeltaError _ _ => true | _ => false end) tr.

Definition write_failed (tr : list event) : bool :=
  existsb (fun ev => match ev with ConsoleError _ _ => true | _ => false end)
          tr.

(** While [split_scan] runs: no separator starts inside the text [cur]
    kept so far, whatever of [s] follows it. *)
Definition no_match_before (sep cur s : string) : Prop :=
  forall pre post,
    cur = (pre ++ post)%string -> post <> "" ->
    prefix sep (post ++ s)%string = false.

Example split_pipe : split "Body|Arm|Hand" "|" = ["Body"; "Arm"; "Hand"].
Proof. reflexivity. Qed.

Example split_two_chars : split "a, b, c" ", " = ["a"; "b"; "c"].
Proof. reflexivity. Qed.

Example split_overlap : split "aaax" "aa" = [""; "ax"].
Proof. reflexivity. Qed.

Example split_edges : split "|A||B|" "|" = [""; "A"; ""; "B"; ""].
Proof. reflexivity. Qed.

Example split_empty_sep : split "abc" "" = ["a"; "b"; "c"].
Proof. reflexivity. Qed.

Example toString_number :
  toString (JNum {| int_value := 123; int_safe := eq_refl |}) = "123".
Proof. reflexivity. Qed.

Example toString_negative :
  toString (JNum {| int_value := -5; int_safe := eq_refl |}) = "-5".
Proof. reflexivity. Qed.

Example toString_zero :
  toString (JNum {| int_value := 0; int_safe := eq_refl |}) = "0".
Proof. reflexivity. Qed.

Example normalize_leaf_collision :
  convertMetadataToHierarchy
    {| HierarchicalSubject := JArray [JStr "Body|Arm|Hand"];
       Subject := JArray [JStr "Hand"; JStr "Foot"];
       Keywords := JArray [] |} "|"
  = [["Body"; "Arm"; "Hand"]; ["Foot"]].
Proof. reflexivity. Qed.

Example serialize_example :
  writes (writeTags ep_ok {| hierarchicalSeparator := "|" |} "a.jpg"
            [["Body"; "Hand"]; ["Foot"]])
  = [("a.jpg",
      {| Payload.HierarchicalSubject := ["Body|Hand"; "Foot"];
         Payload.Subject := [Some "Hand"; Some "Foot"];
         Payload.Keywords := [Some "Hand"; Some "Foot"] |})].
Proof. reflexivity. Qed.

Example writeTags_trace :
  writeTags ep_ok {| hierarchicalSeparator := "|" |} "a.jpg" [["A"; "B"]; ["C"]]
  = [ConsoleLog ["Writing"; "A,B, C"; "to"; "a.jpg"];
     WriteMetadata "a.jpg"
       {| Payload.HierarchicalSubject := ["A|B"; "C"];
          Payload.Subject := [Some "B"; Some "C"];
          Payload.Keywords := [Some "B"; Some "C"] |}
       ["overwrite_original "]].
Proof. reflexivity. Qed.

(* ================================================================== *)
(** ** Facts about the built-ins *)
(* ================================================================== *)

Section SetFacts.

Lemma mem_In (x : string) (a : list string) :
  mem x a = true <-> In x a.
Proof.
  unfold mem. rewrite existsb_exists. split.
  - intros [y [Hy Heq]]. apply String.eqb_eq in Heq. now subst.
  - intros Hx. exists x. split; [assumption | apply String.eqb_refl].
Qed.

Lemma mem_app (x : string) (a b : list string) :
  mem x (a ++ b) = mem x a || mem x b.
Proof. unfold mem. apply existsb_app. Qed.

Lemma filter_twice {A : Type} (f g : A -> bool) (l : list A) :
  filter f (filter g l) = filter (fun x => g x && f x) l.
Proof.
  induction l as [| x l IH]; simpl; [reflexivity |].
  destruct (g x); simpl; [destruct (f x) |]; now rewrite IH.
Qed.

Lemma filter_none {A : Type} (f : A -> bool) (l : list A) :
  (forall x, In x l -> f x = false) -> filter f l = [].
Proof.
  induction l as [| x l IH]; simpl; intros H; [reflexivity |].
  rewrite (H x (or_introl eq_refl)). apply IH. intros y Hy. apply H. now right.
Qed.

(** Inserting into a set that holds [acc]: the new values follow, each on
    its first occurrence. *)
Lemma fold_Set_add (a acc : list string) :
  fold_left Set_add a acc
  = acc ++ filter (fun y => negb (mem y acc)) (distinct a).
Proof.
  revert acc. induction a as [| x r IH]; intros acc; simpl.
  - now rewrite app_nil_r.
  - rewrite IH. unfold Set_add. fold (mem x acc).
    destruct (mem x acc) eqn:Hx; simpl.
    + f_equal. rewrite filter_twice. apply filter_ext. intros y.
      destruct (String.eqb y x) eqn:Hyx; simpl; [| reflexivity].
      apply String.eqb_eq in Hyx. subst y. now rewrite Hx.
    + rewrite <- app_assoc. simpl. do 2 f_equal.
      rewrite filter_twice. apply filter_ext. intros y.
      rewrite mem_app. unfold mem at 2. simpl.
      rewrite orb_false_r, negb_orb. apply andb_comm.
Qed.

Lemma Set_from_distinct (a : list string) : Set_from a = distinct a.
Proof.
  unfold Set_from. rewrite fold_Set_add. simpl.
  induction (distinct a) as [| y l IH]; simpl; [reflexivity | now rewrite IH].
Qed.

Lemma distinct_In (x : string) (a : list string) :
  In x (distinct a) <-> In x a.
Proof.
  induction a as [| y r IH]; simpl; [tauto |].
  rewrite filter_In, IH, negb_true_iff, String.eqb_neq.
  destruct (string_dec y x) as [-> | Hne]; [tauto |].
  split; [tauto |]. intros [H | H]; [tauto |]. right. split; congruence.
Qed.

Lemma NoDup_filter {A : Type} (f : A -> bool) (l : list A) :
  NoDup l -> NoDup (filter f l).
Proof.
  induction 1 as [| x l Hx Hl IH]; simpl; [constructor |].
  destruct (f x); [constructor |]; try assumption.
  rewrite filter_In. tauto.
Qed.

Lemma distinct_NoDup (a : list string) : NoDup (distinct a).
Proof.
  induction a as [| y r IH]; simpl; constructor.
  - rewrite filter_In, String.eqb_refl. simpl. intros [_ H]. discriminate.
  - now apply NoDup_filter.
Qed.

(** The set built from two arrays in a row. *)
Lemma Set_from_app (a b : list string) :
  Set_from (a ++ b)
  = distinct a ++ filter (fun y => negb (mem y a)) (distinct b).
Proof.
  unfold Set_from. rewrite fold_left_app. fold (Set_from a).
  rewrite fold_Set_add, Set_from_distinct. f_equal.
  apply filter_ext. intros y. f_equal.
  apply eq_true_iff_eq. now rewrite !mem_In, distinct_In.
Qed.

End SetFacts.

Section StringFacts.

Lemma append_empty_r (s : string) : (s ++ "")%string = s.
Proof. induction s as [| c s IH]; simpl; [reflexivity | now rewrite IH]. Qed.

Lemma append_assoc (s t u : string) :
  ((s ++ t) ++ u)%string = (s ++ (t ++ u))%string.
Proof. induction s as [| c s IH]; simpl; [reflexivity | now rewrite IH]. Qed.

Lemma prefix_one (c d : ascii) (s : string) :
  prefix (String c "") (String d s) = Ascii.eqb c d.
Proof.
  simpl. destruct (ascii_dec c d) as [-> | Hne].
  - rewrite Ascii.eqb_refl. now destruct s.
  - symmetry. now apply Ascii.eqb_neq.
Qed.

Lemma truthy_number (n : safe_integer) : truthy (toString (JNum n)) = true.
Proof.
  unfold toString, decimal, NilZero.string_of_int.
  destruct (Z.to_int (int_value n)) as [d | d]; [| reflexivity].
  unfold NilZero.string_of_uint. now destruct d.
Qed.

End StringFacts.

Section LeafFacts.

Lemma leaf_nil : leaf [] = None.
Proof. reflexivity. Qed.

Lemma leaf_snoc (h : list string) (x : string) : leaf (h ++ [x]) = Some x.
Proof.
  unfold leaf, index. rewrite length_app. simpl.
  replace (Z.of_nat (List.length h + 1) - 1)%Z with (Z.of_nat (List.length h))
    by lia.
  destruct (Z.ltb_spec (Z.of_nat (List.length h)) 0) as [Hlt | _]; [lia |].
  rewrite Nat2Z.id, nth_error_app2 by lia.
  now rewrite Nat.sub_diag.
Qed.

(** On a path with a segment the leaf is its last segment. *)
Lemma leaf_last (h : list string) (d : string) :
  h <> [] -> leaf h = Some (last h d).
Proof.
  intros Hne. destruct (exists_last Hne) as [h' [x ->]].
  now rewrite leaf_snoc, last_last.
Qed.

Lemma leaf_differs_false (tag : string) (h : list string) :
  leaf_differs tag h = false <-> leaf h = Some tag.
Proof.
  unfold leaf_differs. destruct (leaf h) as [l |]; [| split; discriminate].
  rewrite negb_false_iff, String.eqb_eq. split; congruence.
Qed.

(** A flat name passes [every] exactly when no path ends in it. *)
Lemma every_leaf_differs (tag : string) (hs : list (list string)) :
  forallb (leaf_differs tag) hs = true
  <-> ~ exists h, In h hs /\ leaf h = Some tag.
Proof.
  rewrite forallb_forall. split.
  - intros Hall [h [Hin Hleaf]]. apply leaf_differs_false in Hleaf.
    rewrite (Hall h Hin) in Hleaf. discriminate.
  - intros Hno h Hin. destruct (leaf_differs tag h) eqn:Hd; [reflexivity |].
    exfalso. apply Hno. exists h. split; [assumption |].
    now apply leaf_differs_false.
Qed.

(** It fails [every] exactly when some path ends in it. *)
Lemma some_leaf_equal (tag : string) (hs : list (list string)) :
  forallb (leaf_differs tag) hs = false
  <-> exists h, In h hs /\ leaf h = Some tag.
Proof.
  induction hs as [| h hs IH]; simpl.
  - split; [discriminate | intros [h [[] _]]].
  - rewrite andb_false_iff, IH, leaf_differs_false. split.
    + intros [Hl | [h' [Hin Hl]]].
      * exists h. tauto.
      * exists h'. tauto.
    + intros [h' [[<- | Hin] Hl]]; [now left |].
      right. now exists h'.
Qed.

End LeafFacts.

Section SplitFacts.

Lemma split_scan_not_nil (sep s : string) (skip : nat) (cur : string) :
  split_scan sep skip cur s <> [].
Proof.
  revert skip cur. induction s as [| c s IH]; intros skip cur;
    cbn [split_scan].
  - discriminate.
  - destruct skip as [| k]; [| apply IH].
    destruct (prefix sep (String c s)); [discriminate | apply IH].
Qed.

Variable c : ascii.

(** Text without the separator character goes to the current segment. *)
Lemma split_scan_segment (seg cur rest : string) :
  includes seg (String c "") = false ->
  split_scan (String c "") 0 cur (seg ++ rest)%string
  = split_scan (String c "") 0 (cur ++ seg)%string rest.
Proof.
  revert cur. induction seg as [| d seg IH]; intros cur Hfree.
  - simpl. now rewrite append_empty_r.
  - cbn [includes] in Hfree. apply orb_false_elim in Hfree as [Hd Hseg].
    cbn [append split_scan]. rewrite prefix_one.
    rewrite prefix_one in Hd. rewrite Hd.
    rewrite IH by assumption. now rewrite append_assoc.
Qed.

Lemma split_scan_separator (cur rest : string) :
  split_scan (String c "") 0 cur (String c rest)
  = cur :: split_scan (String c "") 0 "" rest.
Proof.
  cbn [split_scan]. rewrite prefix_one, Ascii.eqb_refl. reflexivity.
Qed.

(** Splitting what [join] built gives the segments back, for a separator of
    one character that no segment holds. *)
Lemma split_join (segs : list string) :
  segs <> [] ->
  Forall (fun seg => includes seg (String c "") = false) segs ->
  split (join (String c "") segs) (String c "") = segs.
Proof.
  unfold split. induction segs as [| x r IH]; intros Hne Hall; [congruence |].
  inversion Hall as [| ? ? Hx Hr]; subst.
  destruct r as [| y r'].
  - cbn [join]. rewrite <- (append_empty_r x) at 1.
    rewrite split_scan_segment by assumption. reflexivity.
  - change (join (String c "") (x :: y :: r'))
      with (x ++ String c (join (String c "") (y :: r')))%string.
    rewrite split_scan_segment by assumption.
    rewrite split_scan_separator. cbn [append]. f_equal.
    apply IH; [discriminate | assumption].
Qed.

End SplitFacts.

(** Joining what [split] returned, with the same separator, gives the
    string back: the identity every JavaScript [split] obeys. *)
Section SplitJoin.

Lemma join_cons (sep x : string) (l : list string) :
  l <> [] -> join sep (x :: l) = (x ++ sep ++ join sep l)%string.
Proof. destruct l; [congruence | reflexivity]. Qed.

Lemma prefix_slice (t s : string) :
  prefix t s = true -> s = (t ++ slice s (String.length t))%string.
Proof.
  revert s. induction t as [| a t IH]; intros s Hp; [reflexivity |].
  destruct s as [| b s]; [discriminate |].
  simpl in Hp. destruct (ascii_dec a b) as [-> | _]; [| discriminate].
  simpl. f_equal. now apply IH.
Qed.

Lemma prefix_length (t s : string) :
  prefix t s = true -> String.length t <= String.length s.
Proof.
  revert s. induction t as [| a t IH]; intros s Hp; simpl; [lia |].
  destruct s as [| b s]; [discriminate |].
  simpl in Hp. destruct (ascii_dec a b) as [-> | _]; [| discriminate].
  simpl. apply IH in Hp. lia.
Qed.

Lemma join_split_scan (a : ascii) (t s : string) (skip : nat) (cur : string) :
  skip <= String.length s ->
  join (String a t) (split_scan (String a t) skip cur s)
  = (cur ++ slice s skip)%string.
Proof.
  revert skip cur. induction s as [| c s IH]; intros skip cur Hskip.
  - simpl in Hskip. assert (skip = 0) as -> by lia.
    simpl. now rewrite append_empty_r.
  - cbn [split_scan]. destruct skip as [| k].
    + destruct (prefix (String a t) (String c s)) eqn:Hp.
      * rewrite join_cons by apply split_scan_not_nil.
        pose proof (prefix_length _ _ Hp) as Hlen.
        rewrite IH by (simpl in Hlen |- *; lia).
        cbn [slice]. rewrite (prefix_slice _ _ Hp) at 1.
        cbn [String.length slice append].
        now replace (S (String.length t) - 1) with (String.length t) by lia.
      * rewrite IH by lia. cbn [slice]. now rewrite append_assoc.
    + rewrite IH by (simpl in Hskip; lia). reflexivity.
Qed.

Lemma join_code_units (s : string) : join "" (code_units s) = s.
Proof.
  induction s as [| c s IH]; [reflexivity |].
  cbn [code_units]. destruct (code_units s) as [| x l] eqn:Hu.
  - simpl in IH |- *. now rewrite <- IH.
  - rewrite join_cons by discriminate. now rewrite IH.
Qed.

Lemma join_split (s sep : string) : join sep (split s sep) = s.
Proof.
  unfold split. destruct sep as [| a t]; [apply join_code_units |].
  now rewrite join_split_scan by lia.
Qed.

End SplitJoin.

(* ================================================================== *)
(** ** The normalizer's result, field by field *)
(* ================================================================== *)

Section NormalizerFacts.

Variable entry : IMetadata.
Variable separator : string.

Lemma splitHierarchy_coerce :
  splitHierarchy entry separator
  = map (fun s => split s separator) (coerce (HierarchicalSubject entry)).
Proof. unfold splitHierarchy, coerce, tagHierarchy. now rewrite map_map. Qed.

Lemma allPlainTags_coerce :
  allPlainTags entry
  = Set_from (coerce (Subject entry) ++ coerce (Keywords entry)).
Proof. reflexivity. Qed.

Lemma allPlainTags_In (t : string) :
  In t (allPlainTags entry)
  <-> In t (coerce (Subject entry)) \/ In t (coerce (Keywords entry)).
Proof. rewrite allPlainTags_coerce, Set_from_distinct, distinct_In. apply in_app_iff. Qed.

Lemma filteredTags_In (t : string) :
  In t (filteredTags entry separator)
  <-> In t (allPlainTags entry)
      /\ ~ exists h, In h (splitHierarchy entry separator) /\ leaf h = Some t.
Proof.
  unfold filteredTags. rewrite filter_In, every_leaf_differs. reflexivity.
Qed.

End NormalizerFacts.

(** A duplicate-free array is its own set. *)
Lemma distinct_id (a : list string) : NoDup a -> distinct a = a.
Proof.
  induction 1 as [| x l Hx Hl IH]; simpl; [reflexivity |].
  rewrite IH. f_equal. clear IH Hl.
  induction l as [| y l IH]; simpl; [reflexivity |].
  destruct (String.eqb_spec y x) as [-> | Hne]; simpl.
  - exfalso. apply Hx. now left.
  - f_equal. apply IH. intros Hin. apply Hx. now right.
Qed.

(* ================================================================== *)
(** ** Claims about the normalizer *)
(* ================================================================== *)

(** C1. Leaf-collision filtering.  For every entry and separator the result
    is the split paths followed by the flat names that survive, and the names
    discarded from the flat-name union are exactly those equal to the leaf
    (last segment) of some path obtained by splitting a hierarchicalSubject
    entry; the survivors keep the order of the union.  With
    hierarchicalSubject ["Body|Arm|Hand"], subject ["Hand"; "Foot"], no
    keywords and separator "|", the result is
    [["Body"; "Arm"; "Hand"]; ["Foot"]]. *)
Theorem leaf_collision_filtering :
  (forall (entry : IMetadata) (separator : string),
      exists discard : string -> bool,
        (forall t, discard t = true <->
                   exists h, In h (map (fun s => split s separator)
                                       (coerce (HierarchicalSubject entry)))
                             /\ leaf h = Some t)
        /\ convertMetadataToHierarchy entry separator
           = map (fun s => split s separator)
                 (coerce (HierarchicalSubject entry))
             ++ map (fun t => [t])
                    (filter (fun t => negb (discard t)) (allPlainTags entry)))
  /\ convertMetadataToHierarchy
       {| HierarchicalSubject := JArray [JStr "Body|Arm|Hand"];
          Subject := JArray [JStr "Hand"; JStr "Foot"];
          Keywords := JArray [] |} "|"
     = [["Body"; "Arm"; "Hand"]; ["Foot"]].
Proof.
  split; [| reflexivity].
  intros entry separator.
  exists (fun t => negb (forallb (leaf_differs t)
                                 (splitHierarchy entry separator))).
  split.
  - intros t. rewrite negb_true_iff, some_leaf_equal.
    now rewrite splitHierarchy_coerce.
  - unfold convertMetadataToHierarchy, filteredTags.
    rewrite <- splitHierarchy_coerce. do 2 f_equal.
    apply filter_ext. intros t. now rewrite negb_involutive.
Qed.

(** C2. Flat-name union.  For every entry the flat tag names are the
    deduplicated (case-sensitive) union of the coerced subject and keywords
    sequences: the subject entries first, in their given order, then the
    keywords entries not already present; no name occurs twice and a name is
    there exactly when it is in one of the two sequences.  Without
    hierarchical entries these names are the whole result; subject
    ["Red"; "Blue"] and keywords ["Blue"; "Green"] give
    [["Red"]; ["Blue"]; ["Green"]]. *)
Theorem flat_union_order_dedup :
  (forall entry : IMetadata,
      allPlainTags entry
      = distinct (coerce (Subject entry))
        ++ filter (fun k => negb (mem k (coerce (Subject entry))))
                  (distinct (coerce (Keywords entry))))
  /\ (forall entry : IMetadata, NoDup (allPlainTags entry))
  /\ (forall (entry : IMetadata) (t : string),
         In t (allPlainTags entry)
         <-> In t (coerce (Subject entry)) \/ In t (coerce (Keywords entry)))
  /\ (forall (s k : value) (separator : string),
         convertMetadataToHierarchy
           {| HierarchicalSubject := JArray []; Subject := s; Keywords := k |}
           separator
         = map (fun t => [t])
               (allPlainTags {| HierarchicalSubject := JArray [];
                                Subject := s; Keywords := k |}))
  /\ convertMetadataToHierarchy
       {| HierarchicalSubject := JArray [];
          Subject := JArray [JStr "Red"; JStr "Blue"];
          Keywords := JArray [JStr "Blue"; JStr "Green"] |} "|"
     = [["Red"]; ["Blue"]; ["Green"]].
Proof.
  repeat split.
  - intros entry. rewrite allPlainTags_coerce. apply Set_from_app.
  - intros entry. rewrite allPlainTags_coerce, Set_from_distinct.
    apply distinct_NoDup.
  - now apply allPlainTags_In.
  - now apply allPlainTags_In.
  - intros s k separator.
    unfold convertMetadataToHierarchy, filteredTags, splitHierarchy,
      tagHierarchy.
    simpl. f_equal.
    induction (allPlainTags _) as [| t l IH]; simpl; [reflexivity |].
    now rewrite IH.
Qed.

(** The result in terms of the three coerced sequences alone. *)
Lemma convertMetadataToHierarchy_coerce (entry : IMetadata)
      (separator : string) :
  convertMetadataToHierarchy entry separator
  = map (fun s => split s separator) (coerce (HierarchicalSubject entry))
    ++ map (fun t => [t])
         (filter
            (fun tag =>
               forallb (leaf_differs tag)
                 (map (fun s => split s separator)
                      (coerce (HierarchicalSubject entry))))
            (Set_from (coerce (Subject entry) ++ coerce (Keywords entry)))).
Proof.
  unfold convertMetadataToHierarchy, filteredTags.
  now rewrite splitHierarchy_coerce, allPlainTags_coerce.
Qed.

(** An array of strings stands for itself. *)
Lemma coerce_strings (l : list string) : coerce (JArray (map JStr l)) = l.
Proof.
  unfold coerce. simpl. rewrite map_map. simpl. apply map_id.
Qed.

(** The result when only the hierarchical field, or only the flat fields,
    are there. *)
Lemma convert_hierarchy_only (v : value) (separator : string) :
  convertMetadataToHierarchy
    {| HierarchicalSubject := v; Subject := JUndefined;
       Keywords := JUndefined |} separator
  = map (fun s => split s separator) (coerce v).
Proof.
  rewrite convertMetadataToHierarchy_coerce.
  cbn [HierarchicalSubject Subject Keywords]. apply app_nil_r.
Qed.

Lemma convert_flat_only (s k : value) (separator : string) :
  convertMetadataToHierarchy
    {| HierarchicalSubject := JUndefined; Subject := s; Keywords := k |}
    separator
  = map (fun t => [t]) (Set_from (coerce s ++ coerce k)).
Proof.
  rewrite convertMetadataToHierarchy_coerce.
  cbn [HierarchicalSubject Subject Keywords]. cbn [coerce
    parseExifFieldAsString map forallb app]. f_equal.
  induction (Set_from _) as [| t l IH]; simpl; [reflexivity |].
  now rewrite IH.
Qed.

Lemma coerce_number (n : safe_integer) :
  coerce (JScalar (JNum n)) = [decimal (int_value n)].
Proof.
  unfold coerce. cbn [parseExifFieldAsString].
  now rewrite truthy_number.
Qed.

(** C7. Coercion rule.  normalize reads each of its three raw fields as a
    sequence of strings: a sequence is read as itself with each element
    stringified; a single scalar whose text is not empty (a number such as
    123 included, read as ["123"]) as the one-element sequence of its text;
    an absent or empty value as the empty sequence.  The first eight parts
    state the rule, the following parts that the result of normalize is
    made of the three sequences so read and of nothing else: all three at
    once, then each field alone, where hierarchicalSubject gives the
    splits of its sequence and Subject or Keywords the first occurrences of
    theirs, and a number in any of the three fields is kept as its decimal
    text (the number 0 too, and a numeric flat name is dropped when a
    hierarchical path ends in the same text).  In particular the scalar
    hierarchicalSubject "A|B" gives the same
    result as the one-element list ["A|B"], and that result holds the path
    ["A"; "B"]. *)
Theorem coercion_rule :
  (forall l : list scalar, coerce (JArray l) = map toString l)
  /\ (forall v : scalar,
         coerce (JScalar v)
         = if truthy (toString v) then [toString v] else [])
  /\ (forall (c : ascii) (s : string),
         coerce (JScalar (JStr (String c s))) = [String c s])
  /\ (forall n : safe_integer,
         coerce (JScalar (JNum n)) = [decimal (int_value n)])
  /\ coerce (JScalar (JNum {| int_value := 123; int_safe := eq_refl |}))
     = ["123"]
  /\ coerce JUndefined = []
  /\ coerce (JScalar (JStr "")) = []
  /\ coerce (JArray []) = []
  /\ (forall (entry : IMetadata) (separator : string),
         convertMetadataToHierarchy entry separator
         = map (fun s => split s separator)
               (coerce (HierarchicalSubject entry))
           ++ map (fun t => [t])
                (filter
                   (fun tag =>
                      forallb (leaf_differs tag)
                        (map (fun s => split s separator)
                             (coerce (HierarchicalSubject entry))))
                   (Set_from
                      (coerce (Subject entry) ++ coerce (Keywords entry)))))
  /\ (forall (v : value) (separator : string),
         convertMetadataToHierarchy
           {| HierarchicalSubject := v; Subject := JUndefined;
              Keywords := JUndefined |} separator
         = map (fun s => split s separator) (coerce v))
  /\ (forall (v : value) (separator : string),
         convertMetadataToHierarchy
           {| HierarchicalSubject := JUndefined; Subject := v;
              Keywords := JUndefined |} separator
         = map (fun t => [t]) (distinct (coerce v)))
  /\ (forall (v : value) (separator : string),
         convertMetadataToHierarchy
           {| HierarchicalSubject := JUndefined; Subject := JUndefined;
              Keywords := v |} separator
         = map (fun t => [t]) (distinct (coerce v)))
  /\ (forall (n : safe_integer) (separator : string),
         convertMetadataToHierarchy
           {| HierarchicalSubject := JScalar (JNum n); Subject := JUndefined;
              Keywords := JUndefined |} separator
         = [split (decimal (int_value n)) separator]
         /\ convertMetadataToHierarchy
              {| HierarchicalSubject := JUndefined;
                 Subject := JScalar (JNum n);
                 Keywords := JUndefined |} separator
            = [[decimal (int_value n)]]
         /\ convertMetadataToHierarchy
              {| HierarchicalSubject := JUndefined; Subject := JUndefined;
                 Keywords := JScalar (JNum n) |} separator
            = [[decimal (int_value n)]])
  /\ convertMetadataToHierarchy
       {| HierarchicalSubject := JUndefined;
          Subject :=
            JScalar (JNum {| int_value := 123; int_safe := eq_refl |});
          Keywords := JUndefined |} "|"
     = [["123"]]
  /\ convertMetadataToHierarchy
       {| HierarchicalSubject :=
            JArray [JNum {| int_value := 123; int_safe := eq_refl |};
                    JStr "A|7"];
          Subject :=
            JArray [JNum {| int_value := 0; int_safe := eq_refl |};
                    JStr "x"];
          Keywords :=
            JScalar (JNum {| int_value := 7; int_safe := eq_refl |}) |} "|"
     = [["123"]; ["A"; "7"]; ["0"]; ["x"]]
  /\ (forall (entry : IMetadata) (separator : string),
         convertMetadataToHierarchy entry separator
         = convertMetadataToHierarchy
             {| HierarchicalSubject :=
                  JArray (map JStr (coerce (HierarchicalSubject entry)));
                Subject := JArray (map JStr (coerce (Subject entry)));
                Keywords := JArray (map JStr (coerce (Keywords entry))) |}
             separator)
  /\ (forall (s k : value) (separator : string),
         convertMetadataToHierarchy
           {| HierarchicalSubject := JScalar (JStr "A|B");
              Subject := s; Keywords := k |} separator
         = convertMetadataToHierarchy
             {| HierarchicalSubject := JArray [JStr "A|B"];
                Subject := s; Keywords := k |} separator)
  /\ (forall s k : value,
         In ["A"; "B"]
            (convertMetadataToHierarchy
               {| HierarchicalSubject := JScalar (JStr "A|B");
                  Subject := s; Keywords := k |} "|")).
Proof.
  split; [reflexivity |].
  split; [intros v; unfold coerce; simpl;
          now destruct (truthy (toString v)) |].
  split; [reflexivity |].
  split; [exact coerce_number |].
  split; [reflexivity |].
  split; [reflexivity |].
  split; [reflexivity |].
  split; [reflexivity |].
  split; [exact convertMetadataToHierarchy_coerce |].
  split; [exact convert_hierarchy_only |].
  split.
  { intros v separator. rewrite convert_flat_only.
    change (coerce JUndefined) with (@nil string).
    now rewrite app_nil_r, Set_from_distinct. }
  split.
  { intros v separator. rewrite convert_flat_only.
    change (coerce JUndefined) with (@nil string).
    now rewrite Set_from_distinct. }
  split.
  { intros n separator. split; [| split].
    - now rewrite convert_hierarchy_only, coerce_number.
    - rewrite convert_flat_only, coerce_number. reflexivity.
    - rewrite convert_flat_only, coerce_number. reflexivity. }
  split; [reflexivity |].
  split; [reflexivity |].
  split.
  { intros entry separator.
    rewrite !convertMetadataToHierarchy_coerce.
    cbn [HierarchicalSubject Subject Keywords].
    now rewrite !coerce_strings. }
  split; [reflexivity |].
  intros s k. rewrite convertMetadataToHierarchy_coerce. now left.
Qed.

Lemma absent_or_empty_parse (v : value) :
  absent_or_empty v -> parseExifFieldAsString v = [].
Proof. intros [-> | [-> | ->]]; reflexivity. Qed.

(** C8. Empty input gives empty output: when each of the three raw fields
    is absent or empty, normalize returns the empty sequence of paths, for
    every separator (the non-empty ones in particular). *)
Theorem empty_input_empty_output (entry : IMetadata) (separator : string) :
  absent_or_empty (HierarchicalSubject entry) ->
  absent_or_empty (Subject entry) ->
  absent_or_empty (Keywords entry) ->
  convertMetadataToHierarchy entry separator = [].
Proof.
  intros Hh Hs Hk.
  unfold convertMetadataToHierarchy, filteredTags, allPlainTags,
    splitHierarchy, tagHierarchy, subject, keywords.
  now rewrite (absent_or_empty_parse _ Hh), (absent_or_empty_parse _ Hs),
    (absent_or_empty_parse _ Hk).
Qed.

(** C8 at an entry with one field of each empty kind. *)
Lemma empty_input_empty_output_witness :
  convertMetadataToHierarchy
    {| HierarchicalSubject := JUndefined;
       Subject := JScalar (JStr "");
       Keywords := JArray [] |} "|" = [].
Proof.
  apply (empty_input_empty_output
           {| HierarchicalSubject := JUndefined;
              Subject := JScalar (JStr "");
              Keywords := JArray [] |} "|").
  - left. reflexivity.
  - right. left. reflexivity.
  - right. right. reflexivity.
Defined.

(** C9 as stated fails: splitting "A||B" on "|" gives a path whose middle
    segment is the empty string. *)
Lemma empty_segment_in_result :
  ~ Forall wf_path
      (convertMetadataToHierarchy
         {| HierarchicalSubject := JArray [JStr "A||B"];
            Subject := JUndefined;
            Keywords := JUndefined |} "|").
Proof.
  intros H. inversion H as [| p ps [_ Hsegs] _]; subst.
  inversion Hsegs as [| ? ? _ Hrest]; subst.
  inversion Hrest as [| ? ? Hempty _]; subst.
  now apply Hempty.
Qed.

(** C9, amended.  For every entry and every non-empty separator, every path
    in the result of normalize has at least one segment. *)
Theorem result_paths_not_empty (entry : IMetadata) (separator : string) :
  separator <> "" ->
  Forall (fun p => p <> []) (convertMetadataToHierarchy entry separator).
Proof.
  intros Hsep. unfold convertMetadataToHierarchy.
  apply Forall_app. split; apply Forall_forall; intros p Hp.
  - unfold splitHierarchy in Hp. apply in_map_iff in Hp as [h [<- _]].
    unfold split. destruct separator; [congruence |].
    apply split_scan_not_nil.
  - apply in_map_iff in Hp as [t [<- _]]. discriminate.
Qed.

(** C9, amended, at the entry of the counterexample with a flat name
    added. *)
Lemma result_paths_not_empty_witness :
  Forall (fun p => p <> [])
    (convertMetadataToHierarchy
       {| HierarchicalSubject := JArray [JStr "A||B"];
          Subject := JScalar (JStr "C");
          Keywords := JUndefined |} "|").
Proof.
  apply (result_paths_not_empty
           {| HierarchicalSubject := JArray [JStr "A||B"];
              Subject := JScalar (JStr "C");
              Keywords := JUndefined |} "|").
  discriminate.
Defined.

(** C10. No deduplication within hierarchicalSubject.  For every entry the
    result starts with one split path per coerced hierarchicalSubject
    string, in order, repeats included; an entry that holds the same string
    twice gives its path twice, as ["A|B"; "A|B"] gives
    [["A"; "B"]; ["A"; "B"]], while a flat name equal to the leaf is
    dropped. *)
Theorem no_dedup_within_hierarchy :
  (forall (entry : IMetadata) (separator : string),
      firstn (List.length (coerce (HierarchicalSubject entry)))
             (convertMetadataToHierarchy entry separator)
      = map (fun s => split s separator)
            (coerce (HierarchicalSubject entry)))
  /\ (forall (x : scalar) (s k : value) (separator : string),
         exists rest,
           convertMetadataToHierarchy
             {| HierarchicalSubject := JArray [x; x];
                Subject := s; Keywords := k |} separator
           = split (toString x) separator
               :: split (toString x) separator :: rest)
  /\ convertMetadataToHierarchy
       {| HierarchicalSubject := JArray [JStr "A|B"; JStr "A|B"];
          Subject := JArray [JStr "B"];
          Keywords := JArray [JStr "B"] |} "|"
     = [["A"; "B"]; ["A"; "B"]].
Proof.
  repeat split.
  - intros entry separator. rewrite convertMetadataToHierarchy_coerce.
    rewrite <- (length_map (fun s => split s separator)).
    rewrite firstn_app, firstn_all, Nat.sub_diag. simpl.
    apply app_nil_r.
  - intros x s k separator.
    exists (map (fun t => [t])
                (filteredTags {| HierarchicalSubject := JArray [x; x];
                                 Subject := s; Keywords := k |} separator)).
    reflexivity.
Qed.

(* ================================================================== *)
(** ** Claims about the serializer *)
(* ================================================================== *)

Section SerializerFacts.

Variable ep : string -> Payload.t -> list string -> WriteReply.
Variable this : ExifIO.
Variable filepath : string.

(** A call with at least one path writes once, the payload of
    [writeData]. *)
Lemma writes_writeTags (p : list string) (ps : list (list string)) :
  writes (writeTags ep this filepath (p :: ps))
  = [(filepath, writeData this (p :: ps))].
Proof.
  unfold writeTags. cbn [List.length].
  destruct (Z.eqb_spec (Z.of_nat (S (List.length ps))) 0) as [H | _]; [lia |].
  cbn [app writes].
  now destruct (negb (error_endsWith _ _)).
Qed.

Lemma writeTags_nil : writeTags ep this filepath [] = [].
Proof. reflexivity. Qed.

End SerializerFacts.

Lemma join_empty_separator (h : list string) :
  join "" h = fold_right append "" h.
Proof.
  induction h as [| x r IH]; [reflexivity |].
  destruct r as [| y r'].
  - simpl. now rewrite append_empty_r.
  - change (join "" (x :: y :: r')) with (x ++ join "" (y :: r'))%string.
    now rewrite IH.
Qed.

Lemma defined_leaves (paths : list (list string)) :
  Forall (fun p => p <> []) paths ->
  defined (map leaf paths) = Some (map (fun p => last p "") paths).
Proof.
  induction 1 as [| p ps Hp Hps IH]; [reflexivity |].
  cbn [map defined]. now rewrite (leaf_last p "" Hp), IH.
Qed.

(** C5. Serializer field shapes.  For every non-empty sequence of paths and
    every separator, serialize writes once, to the file given:
    hierarchicalSubject is each path joined with the separator, in path
    order, and subject and keywords are one and the same sequence, each
    path's last segment in path order (the last segment of a path that ends
    in [x] being [x]).  serialize([["Body","Hand"],["Foot"]], "|") gives
    hierarchicalSubject ["Body|Hand"; "Foot"] and subject = keywords =
    ["Hand"; "Foot"]. *)
Theorem serializer_field_shapes :
  (forall (ep : string -> Payload.t -> list string -> WriteReply)
          (separator filepath : string)
          (p : list string) (ps : list (list string)),
      writes (writeTags ep {| hierarchicalSeparator := separator |} filepath
                (p :: ps))
      = [(filepath,
          {| Payload.HierarchicalSubject := map (join separator) (p :: ps);
             Payload.Subject := map leaf (p :: ps);
             Payload.Keywords := map leaf (p :: ps) |})])
  /\ (forall (h : list string) (x : string), leaf (h ++ [x]) = Some x)
  /\ writes (writeTags ep_ok {| hierarchicalSeparator := "|" |} "a.jpg"
               [["Body"; "Hand"]; ["Foot"]])
     = [("a.jpg",
         {| Payload.HierarchicalSubject := ["Body|Hand"; "Foot"];
            Payload.Subject := [Some "Hand"; Some "Foot"];
            Payload.Keywords := [Some "Hand"; Some "Foot"] |})].
Proof.
  repeat split.
  - intros ep separator filepath p ps. now rewrite writes_writeTags.
  - apply leaf_snoc.
Qed.

(** C6. Empty-input write suppression.  For every separator (and whatever
    the external process would answer) serialize applied to the empty path
    list does nothing at all: no log line, no write.  A write is issued
    exactly when the path list is not empty. *)
Theorem empty_input_no_write :
  (forall (ep : string -> Payload.t -> list string -> WriteReply)
          (this : ExifIO) (filepath : string),
      writeTags ep this filepath [] = [])
  /\ (forall (ep : string -> Payload.t -> list string -> WriteReply)
             (this : ExifIO) (filepath : string)
             (tagNameHierarchy : list (list string)),
         writes (writeTags ep this filepath tagNameHierarchy) <> []
         <-> tagNameHierarchy <> []).
Proof.
  split; [reflexivity |].
  intros ep this filepath [| p ps].
  - simpl. tauto.
  - rewrite writes_writeTags. split; discriminate.
Qed.

(** C3 as stated fails for a separator of two characters: joining "a" and
    "x" with "aa" gives "aaax", whose first "aa" starts one character early,
    so the path read back is [""; "ax"], and the flat name "x", no longer
    a leaf, comes back as a path of its own. *)
Lemma round_trip_fails_on_overlap :
  [["a"; "x"]] <> []
  /\ Forall wf_path [["a"; "x"]]
  /\ Forall (Forall (fun seg => includes seg "aa" = false)) [["a"; "x"]]
  /\ "aa" <> ""
  /\ renormalize ep_ok {| hierarchicalSeparator := "aa" |} "a.jpg"
       [["a"; "x"]]
     = [Some [[""; "ax"]; ["x"]]]
  /\ renormalize ep_ok {| hierarchicalSeparator := "aa" |} "a.jpg"
       [["a"; "x"]]
     <> [Some [["a"; "x"]]].
Proof.
  split; [discriminate |].
  split; [repeat constructor; discriminate |].
  split; [repeat constructor |].
  split; [discriminate |].
  split; [reflexivity | discriminate].
Qed.

(** C3, amended.  For a separator of exactly one character: for every
    non-empty sequence of paths whose segments are non-empty and do not
    contain the separator, feeding what serialize wrote (hierarchicalSubject
    joined with the separator, subject and keywords the leaf names) back
    through normalize with the same separator gives exactly the original
    sequence of paths. *)
Theorem round_trip_one_character
        (ep : string -> Payload.t -> list string -> WriteReply)
        (c : ascii) (filepath : string) (paths : list (list string)) :
  paths <> [] ->
  Forall wf_path paths ->
  Forall (Forall (fun seg => includes seg (String c "") = false)) paths ->
  renormalize ep {| hierarchicalSeparator := String c "" |} filepath paths
  = [Some paths].
Proof.
  intros Hne Hwf Hfree.
  assert (Hpaths : Forall (fun p => p <> []) paths).
  { eapply Forall_impl; [| exact Hwf]. now intros p [Hp _]. }
  unfold renormalize. destruct paths as [| p ps]; [congruence |].
  rewrite writes_writeTags. cbn [map snd]. f_equal.
  set (paths := p :: ps) in *.
  unfold readBack, writeData.
  cbn [Payload.Subject Payload.Keywords Payload.HierarchicalSubject].
  rewrite (defined_leaves paths Hpaths). cbn [option_map]. f_equal.
  rewrite convertMetadataToHierarchy_coerce.
  cbn [HierarchicalSubject Subject Keywords hierarchicalSeparator].
  rewrite !coerce_strings, map_map.
  assert (Hsplit : map (fun x => split (join (String c "") x) (String c ""))
                       paths = paths).
  { rewrite <- (map_id paths) at 2. apply map_ext_in. intros h Hh.
    apply split_join.
    - exact (proj1 (Forall_forall _ _) Hpaths h Hh).
    - exact (proj1 (Forall_forall _ _) Hfree h Hh). }
  rewrite Hsplit, filter_none; [apply app_nil_r |].
  intros t Ht. apply some_leaf_equal.
  rewrite Set_from_distinct, distinct_In, in_app_iff in Ht.
  assert (Hin : In t (map (fun p => last p "") paths)) by tauto.
  apply in_map_iff in Hin as [h [<- Hh]].
  exists h. split; [assumption |].
  apply leaf_last. exact (proj1 (Forall_forall _ _) Hpaths h Hh).
Qed.

(** C3, amended, at two paths and the default separator. *)
Lemma round_trip_one_character_witness :
  renormalize ep_ok {| hierarchicalSeparator := "|" |} "a.jpg"
    [["Body"; "Arm"; "Hand"]; ["Foot"]]
  = [Some [["Body"; "Arm"; "Hand"]; ["Foot"]]].
Proof.
  apply (round_trip_one_character ep_ok "|"%char "a.jpg"
           [["Body"; "Arm"; "Hand"]; ["Foot"]]).
  - discriminate.
  - repeat constructor; discriminate.
  - repeat constructor.
Defined.

(* ================================================================== *)
(** ** The empty separator *)
(* ================================================================== *)

(** The constructor never leaves the separator empty; the setter can. *)
Lemma constructor_separator (stored : option string) :
  hierarchicalSeparator (constructor stored) <> "".
Proof.
  unfold constructor. destruct stored as [[| c s] |]; simpl; discriminate.
Qed.

Lemma setHierarchicalSeparator_empty (this : ExifIO) :
  hierarchicalSeparator (fst (setHierarchicalSeparator this "")) = "".
Proof. reflexivity. Qed.

(** C4 as stated fails: with the empty separator both calls end with a
    value.  The normalizer returns the entry "ab" cut into "a" and "b"; the
    serializer, its separator set to the empty string, logs and writes. *)
Lemma empty_separator_does_not_fail :
  call_convertMetadataToHierarchy
    {| HierarchicalSubject := JArray [JStr "ab"];
       Subject := JUndefined;
       Keywords := JUndefined |} ""
  = Normal [["a"; "b"]]
  /\ call_writeTags ep_ok (fst (setHierarchicalSeparator (constructor None) ""))
       "a.jpg" [["a"; "b"]]
     = Normal
         [ConsoleLog ["Writing"; "a,b"; "to"; "a.jpg"];
          WriteMetadata "a.jpg"
            {| Payload.HierarchicalSubject := ["ab"];
               Payload.Subject := [Some "b"];
               Payload.Keywords := [Some "b"] |}
            ["overwrite_original "]]
  /\ ~ ((exists err,
            call_convertMetadataToHierarchy
              {| HierarchicalSubject := JArray [JStr "ab"];
                 Subject := JUndefined;
                 Keywords := JUndefined |} "" = Throw err)
        /\ (exists err,
               call_writeTags ep_ok
                 (fst (setHierarchicalSeparator (constructor None) ""))
                 "a.jpg" [["a"; "b"]] = Throw err)).
Proof.
  split; [reflexivity |]. split; [reflexivity |].
  intros [[err H] _]. discriminate H.
Qed.

(** C4, amended.  With the empty separator neither operation fails, for
    every value of the other arguments.  normalize returns: each
    hierarchicalSubject string cut into its single characters, then the flat
    names that are the last character of none of them.  serialize returns:
    for an empty path list having done nothing, and otherwise having written
    once, hierarchicalSubject being each path's segments run together. *)
Theorem empty_separator_returns :
  (forall entry : IMetadata,
      call_convertMetadataToHierarchy entry ""
      = Normal
          (map code_units (coerce (HierarchicalSubject entry))
           ++ map (fun t => [t]) (filteredTags entry "")))
  /\ (forall (ep : string -> Payload.t -> list string -> WriteReply)
             (filepath : string),
         call_writeTags ep {| hierarchicalSeparator := "" |} filepath []
         = Normal [])
  /\ (forall (ep : string -> Payload.t -> list string -> WriteReply)
             (filepath : string) (p : list string) (ps : list (list string)),
         exists tr,
           call_writeTags ep {| hierarchicalSeparator := "" |} filepath
             (p :: ps) = Normal tr
           /\ writes tr
              = [(filepath,
                  {| Payload.HierarchicalSubject :=
                       map (fold_right append "") (p :: ps);
                     Payload.Subject := map leaf (p :: ps);
                     Payload.Keywords := map leaf (p :: ps) |})]).
Proof.
  split; [| split].
  - intros entry. unfold call_convertMetadataToHierarchy,
      convertMetadataToHierarchy. now rewrite splitHierarchy_coerce.
  - reflexivity.
  - intros ep filepath p ps. eexists. split; [reflexivity |].
    rewrite writes_writeTags. unfold writeData.
    cbn [hierarchicalSeparator].
    now rewrite (map_ext _ _ join_empty_separator).
Qed.

(* ================================================================== *)
(** ** The separator setting *)
(* ================================================================== *)

(** X1. The separator across a restart.  [setHierarchicalSeparator] makes
    [val] the separator of the running object and stores it; an object
    constructed from what was stored has [val] again when [val] is not the
    empty string, and "|" when it is.  An object just constructed never has
    the empty separator, whatever the storage holds. *)
Theorem separator_after_restart :
  (forall (this : ExifIO) (val : string),
      hierarchicalSeparator (fst (setHierarchicalSeparator this val)) = val)
  /\ (forall (this : ExifIO) (c : ascii) (val : string),
         hierarchicalSeparator
           (constructor (snd (setHierarchicalSeparator this (String c val))))
         = String c val)
  /\ (forall this : ExifIO,
         hierarchicalSeparator
           (constructor (snd (setHierarchicalSeparator this "")))
         = "|")
  /\ (forall stored : option string,
         hierarchicalSeparator (constructor stored) <> "").
Proof.
  repeat split.
  intros [[| c s] |]; simpl; discriminate.
Qed.

(* ================================================================== *)
(** ** The readers *)
(* ================================================================== *)

Section ReaderFacts.

Lemma truthy_text_None (x : option string) :
  truthy_text x = None <-> x = None \/ x = Some "".
Proof.
  destruct x as [[| c s] |]; simpl; intuition discriminate.
Qed.

Lemma truthy_text_Some (x : option string) (s : string) :
  truthy_text x = Some s <-> x = Some s /\ s <> "".
Proof.
  destruct x as [[| c t] |]; simpl; split; intros H;
    try discriminate; try (destruct H; congruence).
  inversion H. split; [reflexivity | discriminate].
Qed.

Lemma first_entry_None (metadata : ReadReply.t) :
  first_entry metadata = None
  <-> ReadReply.data metadata = None \/ ReadReply.data metadata = Some [].
Proof.
  unfold first_entry. destruct (ReadReply.data metadata) as [[| e rest] |];
    cbn; intuition discriminate.
Qed.

Lemma first_entry_Some (metadata : ReadReply.t) (entry : MetadataEntry) :
  first_entry metadata = Some entry
  <-> exists rest, ReadReply.data metadata = Some (entry :: rest).
Proof.
  unfold first_entry. destruct (ReadReply.data metadata) as [[| e rest] |];
    cbn; split; intros H; try discriminate;
    try (destruct H; congruence).
  inversion H. now exists rest.
Qed.

(** When the guard lets the entry through and when it throws. *)
Lemma entryOrThrow_Normal (metadata : ReadReply.t) (msg : string)
      (entry : MetadataEntry) :
  entryOrThrow metadata msg = Normal entry
  <-> (ReadReply.error metadata = None \/ ReadReply.error metadata = Some "")
      /\ exists rest, ReadReply.data metadata = Some (entry :: rest).
Proof.
  rewrite <- truthy_text_None, <- first_entry_Some. unfold entryOrThrow.
  destruct (truthy_text (ReadReply.error metadata)) as [e |];
    destruct (first_entry metadata) as [e' |]; split;
    try discriminate; try (intros [H1 H2]; discriminate).
  - intros H. inversion H. tauto.
  - intros [_ H]. now inversion H.
Qed.

Lemma entryOrThrow_Throw (metadata : ReadReply.t) (msg err : string) :
  entryOrThrow metadata msg = Throw err
  <-> (ReadReply.error metadata = Some err /\ err <> "")
      \/ ((ReadReply.error metadata = None
           \/ ReadReply.error metadata = Some "")
          /\ (ReadReply.data metadata = None
              \/ ReadReply.data metadata = Some [])
          /\ err = msg).
Proof.
  rewrite <- truthy_text_None, <- first_entry_None, <- truthy_text_Some.
  unfold entryOrThrow.
  destruct (truthy_text (ReadReply.error metadata)) as [e |];
    destruct (first_entry metadata) as [e' |]; split; intros H;
    try discriminate.
  - left. congruence.
  - destruct H as [H | [H _]]; [congruence | discriminate].
  - left. congruence.
  - destruct H as [H | [H _]]; [congruence | discriminate].
  - destruct H as [H | [_ [H _]]]; discriminate.
  - right. inversion H. tauto.
  - destruct H as [H | [_ [_ H]]]; [discriminate | congruence].
Qed.

End ReaderFacts.

(** X2. What [readTags] answers.  It returns exactly when the reply has no
    error text (none, or the empty string) and holds at least one entry, and
    then returns the normalization of the first entry under the object's
    separator.  It throws exactly otherwise: with the reply's error text
    when that is not empty, even if entries came with it, and else with
    "No metadata entry". *)
Theorem readTags_outcome
        (ep : string -> list string -> ReadReply.t) (this : ExifIO)
        (filepath : string) :
  (forall paths : list (list string),
      readTags ep this filepath = Normal paths
      <-> (ReadReply.error
             (ep filepath ["HierarchicalSubject"; "Subject"; "Keywords"])
           = None
           \/ ReadReply.error
                (ep filepath ["HierarchicalSubject"; "Subject"; "Keywords"])
              = Some "")
          /\ exists entry rest,
               ReadReply.data
                 (ep filepath ["HierarchicalSubject"; "Subject"; "Keywords"])
               = Some (entry :: rest)
               /\ paths = convertMetadataToHierarchy (fieldsOf entry)
                            (hierarchicalSeparator this))
  /\ (forall err : string,
         readTags ep this filepath = Throw err
         <-> (ReadReply.error
                (ep filepath ["HierarchicalSubject"; "Subject"; "Keywords"])
              = Some err /\ err <> "")
             \/ ((ReadReply.error
                    (ep filepath
                        ["HierarchicalSubject"; "Subject"; "Keywords"])
                  = None
                  \/ ReadReply.error
                       (ep filepath
                           ["HierarchicalSubject"; "Subject"; "Keywords"])
                     = Some "")
                 /\ (ReadReply.data
                       (ep filepath
                           ["HierarchicalSubject"; "Subject"; "Keywords"])
                     = None
                     \/ ReadReply.data
                          (ep filepath
                              ["HierarchicalSubject"; "Subject"; "Keywords"])
                        = Some [])
                 /\ err = "No metadata entry")).
Proof.
  unfold readTags.
  set (metadata := ep filepath ["HierarchicalSubject"; "Subject"; "Keywords"]).
  split.
  - intros paths.
    destruct (entryOrThrow metadata "No metadata entry") as [entry | e]
      eqn:Hguard.
    + apply entryOrThrow_Normal in Hguard as [Herr [rest Hdata]]. split.
      * intros H. inversion H. split; [assumption |].
        now exists entry, rest.
      * intros [_ [entry' [rest' [Hdata' ->]]]].
        rewrite Hdata in Hdata'. now inversion Hdata'.
    + split; [discriminate |].
      intros [Herr [entry [rest [Hdata _]]]].
      assert (Hn : entryOrThrow metadata "No metadata entry" = Normal entry).
      { apply entryOrThrow_Normal. split; [assumption | now exists rest]. }
      congruence.
  - intros err. rewrite <- entryOrThrow_Throw.
    destruct (entryOrThrow metadata "No metadata entry") as [entry | e];
      split; intros H; try discriminate; congruence.
Qed.

(** X3. [readTagsRecursively] reads one entry.  Of the entries a directory
    read brings back, only the first counts: with the same error field, a
    reply of the entry alone gives the same outcome as a reply where any
    other entries follow it.  When the error field is empty the outcome is
    the normalization of that first entry, which is also what [readTags]
    gives for such a reply. *)
Theorem readTagsRecursively_first_entry :
  (forall (this : ExifIO) (directory : string) (err : option string)
          (entry : MetadataEntry) (rest : list MetadataEntry),
      readTagsRecursively
        (fun _ _ => {| ReadReply.data := Some (entry :: rest);
                       ReadReply.error := err |})
        this directory
      = readTagsRecursively
          (fun _ _ => {| ReadReply.data := Some [entry];
                         ReadReply.error := err |})
          this directory)
  /\ (forall (this : ExifIO) (directory : string)
             (entry : MetadataEntry) (rest : list MetadataEntry),
         readTagsRecursively (fun _ _ => reply_of (entry :: rest))
           this directory
         = Normal (convertMetadataToHierarchy (fieldsOf entry)
                     (hierarchicalSeparator this))
         /\ readTags (fun _ _ => reply_of (entry :: rest)) this directory
            = Normal (convertMetadataToHierarchy (fieldsOf entry)
                        (hierarchicalSeparator this))).
Proof.
  split.
  - intros this directory err entry rest.
    unfold readTagsRecursively, entryOrThrow. cbn.
    now destruct (truthy_text err).
  - intros this directory entry rest. split; reflexivity.
Qed.

(** X4. What [readExifTags] returns.  When it returns, there is one result
    for each requested tag, in the order asked; no result is the empty
    string; and the result for a tag is [undefined] exactly when the first
    entry has no such property or the property prints as the empty text. *)
Theorem readExifTags_results
        (ep : string -> list string -> ReadReply.t)
        (filepath : string) (tags : list string)
        (results : list (option string)) :
  readExifTags ep filepath tags = Normal results ->
  List.length results = List.length tags
  /\ ~ In (Some "") results
  /\ exists entry rest,
       ReadReply.data (ep filepath tags) = Some (entry :: rest)
       /\ forall (i : nat) (t : string),
            nth_error tags i = Some t ->
            exists r,
              nth_error results i = Some r
              /\ (r = None
                  <-> value_toString (entry t) = None
                      \/ value_toString (entry t) = Some "")
              /\ (forall s, r = Some s -> value_toString (entry t) = Some s).
Proof.
  unfold readExifTags. intros H.
  destruct (entryOrThrow (ep filepath tags) "No metadata entry")
    as [entry | e] eqn:Hguard; [| discriminate].
  inversion H; subst results; clear H.
  apply entryOrThrow_Normal in Hguard as [_ [rest Hdata]].
  split; [apply length_map |]. split.
  - intros Hin. apply in_map_iff in Hin as [t [Ht _]].
    apply truthy_text_Some in Ht as [_ Hne]. now apply Hne.
  - exists entry, rest. split; [assumption |].
    intros i t Hi. exists (truthy_text (value_toString (entry t))).
    split.
    { exact (map_nth_error
               (fun t => truthy_text (value_toString (entry t))) i tags Hi). }
    split.
    + apply truthy_text_None.
    + intros s Hs. now apply truthy_text_Some in Hs as [Hs _].
Qed.

(** X4 at a reply with a scalar, an array, an empty and a missing
    property. *)
Lemma readExifTags_results_witness :
  List.length [Some "Ann"; Some "a,b"; None; None] = 4
  /\ ~ In (Some "") [Some "Ann"; Some "a,b"; None; None].
Proof.
  pose proof
    (readExifTags_results
       (fun _ _ =>
          reply_of
            [fun key =>
               if String.eqb key "Artist" then JScalar (JStr "Ann")
               else if String.eqb key "Subject"
                    then JArray [JStr "a"; JStr "b"]
                    else if String.eqb key "Title" then JScalar (JStr "")
                         else JUndefined])
       "a.jpg" ["Artist"; "Subject"; "Title"; "Model"]
       [Some "Ann"; Some "a,b"; None; None] eq_refl) as [Hlen [Hne _]].
  split; [exact Hlen | exact Hne].
Defined.

(* ================================================================== *)
(** ** Reading and writing together *)
(* ================================================================== *)

Section ReadWriteFacts.

(** A string that does not hold the separator is one segment. *)
Lemma split_scan_without (sep t cur : string) :
  includes t sep = false ->
  split_scan sep 0 cur t = [(cur ++ t)%string].
Proof.
  revert cur. induction t as [| c t IH]; intros cur Hfree.
  - simpl. now rewrite append_empty_r.
  - cbn [includes] in Hfree. apply orb_false_elim in Hfree as [Hp Ht].
    cbn [split_scan]. rewrite Hp, IH by assumption.
    now rewrite append_assoc.
Qed.

Lemma split_without (sep t : string) :
  includes t sep = false -> split t sep = [t].
Proof.
  intros Hfree. unfold split. destruct sep as [| a sep'].
  - destruct t; discriminate.
  - now apply split_scan_without.
Qed.

(** Splitting the join of what a split returned gives it again. *)
Lemma split_join_split (s sep : string) :
  split (join sep (split s sep)) sep = split s sep.
Proof. now rewrite join_split. Qed.

(** Normalizing what [writeData] holds for paths that survive a join and a
    split: the paths themselves. *)
Lemma normalize_written (sep : string) (paths : list (list string)) :
  Forall (fun p => p <> []) paths ->
  map (fun h => split (join sep h) sep) paths = paths ->
  option_map (fun e => convertMetadataToHierarchy e sep)
             (readBack (writeData {| hierarchicalSeparator := sep |} paths))
  = Some paths.
Proof.
  intros Hpaths Hsplit.
  unfold readBack, writeData.
  cbn [Payload.Subject Payload.Keywords Payload.HierarchicalSubject].
  rewrite (defined_leaves paths Hpaths). cbn [option_map]. f_equal.
  rewrite convertMetadataToHierarchy_coerce.
  cbn [HierarchicalSubject Subject Keywords hierarchicalSeparator].
  rewrite !coerce_strings, map_map.
  rewrite Hsplit, filter_none; [apply app_nil_r |].
  intros t Ht. apply some_leaf_equal.
  rewrite Set_from_distinct, distinct_In, in_app_iff in Ht.
  assert (Hin : In t (map (fun p => last p "") paths)) by tauto.
  apply in_map_iff in Hin as [h [<- Hh]].
  exists h. split; [assumption |].
  apply leaf_last. exact (proj1 (Forall_forall _ _) Hpaths h Hh).
Qed.

Lemma fieldsOf_entry_of (fields : IMetadata) :
  fieldsOf (entry_of fields) = fields.
Proof. now destruct fields. Qed.

End ReadWriteFacts.

(** X5. Write, then read.  Take a separator of one character and a
    non-empty list of paths whose segments are non-empty and free of it.  If
    the process, asked for the tags of the file, answers without error with
    an entry whose three fields are the arrays [writeTags] wrote to that
    file, then [readTags] returns exactly the paths written. *)
Theorem write_then_read
        (ep_w : string -> Payload.t -> list string -> WriteReply)
        (ep_r : string -> list string -> ReadReply.t)
        (c : ascii) (filepath : string) (paths : list (list string))
        (entry : MetadataEntry) (rest : list MetadataEntry) :
  paths <> [] ->
  Forall wf_path paths ->
  Forall (Forall (fun seg => includes seg (String c "") = false)) paths ->
  map (fun w => (fst w, readBack (snd w)))
      (writes (writeTags ep_w {| hierarchicalSeparator := String c "" |}
                 filepath paths))
  = [(filepath, Some (fieldsOf entry))] ->
  ep_r filepath ["HierarchicalSubject"; "Subject"; "Keywords"]
  = reply_of (entry :: rest) ->
  readTags ep_r {| hierarchicalSeparator := String c "" |} filepath
  = Normal paths.
Proof.
  intros Hne Hwf Hfree Hwritten Hreply.
  assert (Hpaths : Forall (fun p => p <> []) paths).
  { eapply Forall_impl; [| exact Hwf]. now intros p [Hp _]. }
  destruct paths as [| p ps]; [congruence |].
  rewrite writes_writeTags in Hwritten. cbn [map fst snd] in Hwritten.
  assert (Hback : readBack
                    (writeData {| hierarchicalSeparator := String c "" |}
                       (p :: ps)) = Some (fieldsOf entry)) by congruence.
  unfold readTags. rewrite Hreply. cbn [entryOrThrow reply_of].
  unfold entryOrThrow. cbn. f_equal.
  pose proof (normalize_written (String c "") (p :: ps) Hpaths) as Hnorm.
  rewrite Hback in Hnorm. cbn [option_map] in Hnorm.
  assert (Hsplit : map (fun h => split (join (String c "") h) (String c ""))
                       (p :: ps) = p :: ps).
  { rewrite <- (map_id (p :: ps)) at 2. apply map_ext_in. intros h Hh.
    apply split_join.
    - exact (proj1 (Forall_forall _ _) Hpaths h Hh).
    - exact (proj1 (Forall_forall _ _) Hfree h Hh). }
  specialize (Hnorm Hsplit). now inversion Hnorm.
Qed.

(** X5 at two paths, the default separator and an exiftool that keeps what
    it is given. *)
Lemma write_then_read_witness :
  readTags
    (fun _ _ =>
       reply_of
         [entry_of
            {| HierarchicalSubject := JArray [JStr "Body|Hand"; JStr "Foot"];
               Subject := JArray [JStr "Hand"; JStr "Foot"];
               Keywords := JArray [JStr "Hand"; JStr "Foot"] |}])
    {| hierarchicalSeparator := "|" |} "a.jpg"
  = Normal [["Body"; "Hand"]; ["Foot"]].
Proof.
  apply (write_then_read ep_ok _ "|"%char "a.jpg"
           [["Body"; "Hand"]; ["Foot"]]
           (entry_of
              {| HierarchicalSubject := JArray [JStr "Body|Hand"; JStr "Foot"];
                 Subject := JArray [JStr "Hand"; JStr "Foot"];
                 Keywords := JArray [JStr "Hand"; JStr "Foot"] |})
           []).
  - discriminate.
  - repeat constructor; discriminate.
  - repeat constructor.
  - reflexivity.
  - reflexivity.
Defined.

(* ================================================================== *)
(** ** More about the normalizer's result *)
(* ================================================================== *)

Section ResultFacts.

Variable entry : IMetadata.
Variable separator : string.

Lemma allPlainTags_NoDup : NoDup (allPlainTags entry).
Proof. rewrite allPlainTags_coerce, Set_from_distinct. apply distinct_NoDup. Qed.

Lemma filteredTags_NoDup : NoDup (filteredTags entry separator).
Proof. unfold filteredTags. apply NoDup_filter, allPlainTags_NoDup. Qed.

Lemma leaf_singleton (t : string) : leaf [t] = Some t.
Proof. reflexivity. Qed.

(** A surviving flat name is no path of the hierarchy. *)
Lemma filteredTags_not_split (t : string) :
  In t (filteredTags entry separator) ->
  ~ In [t] (splitHierarchy entry separator).
Proof.
  intros Ht Hin. apply filteredTags_In in Ht as [_ Hno].
  apply Hno. now exists [t].
Qed.

Lemma flat_paths_NoDup :
  NoDup (map (fun t => [t]) (filteredTags entry separator)).
Proof.
  induction filteredTags_NoDup as [| t l Ht Hl IH]; simpl; constructor.
  - intros Hin. apply in_map_iff in Hin as [t' [Heq Hin]].
    inversion Heq. now subst.
  - exact IH.
Qed.

End ResultFacts.

(** X6. No flat tag is lost.  Every name the Subject or Keywords field
    holds is the last segment of some path of the result: of its own
    one-segment path, or of a hierarchical path that ends in it. *)
Theorem every_flat_name_is_a_leaf
        (entry : IMetadata) (separator : string) (t : string) :
  In t (coerce (Subject entry)) \/ In t (coerce (Keywords entry)) ->
  exists p, In p (convertMetadataToHierarchy entry separator)
            /\ leaf p = Some t.
Proof.
  intros Ht. apply allPlainTags_In in Ht.
  unfold convertMetadataToHierarchy.
  destruct (forallb (leaf_differs t) (splitHierarchy entry separator))
    eqn:Hall.
  - exists [t]. split; [| reflexivity].
    apply in_or_app. right. apply (in_map (fun t => [t])).
    unfold filteredTags. apply filter_In. now split.
  - apply some_leaf_equal in Hall as [h [Hin Hl]].
    exists h. split; [| assumption]. apply in_or_app. now left.
Qed.

(** X6 at a name that stays flat, beside one that a hierarchy ends in. *)
Lemma every_flat_name_is_a_leaf_witness :
  exists p,
    In p (convertMetadataToHierarchy
            {| HierarchicalSubject := JArray [JStr "Body|Hand"];
               Subject := JArray [JStr "Hand"];
               Keywords := JScalar (JStr "Foot") |} "|")
    /\ leaf p = Some "Foot".
Proof.
  apply (every_flat_name_is_a_leaf
           {| HierarchicalSubject := JArray [JStr "Body|Hand"];
              Subject := JArray [JStr "Hand"];
              Keywords := JScalar (JStr "Foot") |} "|" "Foot").
  right. left. reflexivity.
Defined.

(** X7. Duplicates in the result come from HierarchicalSubject only.  The
    one-segment paths made of flat names are pairwise different and
    different from every hierarchical path; so when the hierarchical entries
    split into pairwise different paths, no path occurs twice in the
    result. *)
Theorem result_without_duplicates
        (entry : IMetadata) (separator : string) :
  NoDup (map (fun s => split s separator)
             (coerce (HierarchicalSubject entry))) ->
  NoDup (convertMetadataToHierarchy entry separator).
Proof.
  intros Hh. rewrite <- splitHierarchy_coerce in Hh.
  unfold convertMetadataToHierarchy.
  apply NoDup_app; [assumption | apply flat_paths_NoDup |].
  intros h Hh' Hflat. apply in_map_iff in Hflat as [t [<- Ht]].
  now apply (filteredTags_not_split entry separator t).
Qed.

(** X7 at two different hierarchical entries and a flat name. *)
Lemma result_without_duplicates_witness :
  NoDup (convertMetadataToHierarchy
           {| HierarchicalSubject := JArray [JStr "A|B"; JStr "B"];
              Subject := JArray [JStr "B"; JStr "C"];
              Keywords := JArray [JStr "C"] |} "|").
Proof.
  apply (result_without_duplicates
           {| HierarchicalSubject := JArray [JStr "A|B"; JStr "B"];
              Subject := JArray [JStr "B"; JStr "C"];
              Keywords := JArray [JStr "C"] |} "|").
  cbn. constructor.
  - intros [H | []]. discriminate H.
  - constructor; [intros [] | constructor].
Defined.

(** With a separator that is not empty every path has a segment. *)
Lemma result_paths_nonempty (entry : IMetadata) (c : ascii) (sep : string) :
  Forall (fun p => p <> [])
         (convertMetadataToHierarchy entry (String c sep)).
Proof.
  unfold convertMetadataToHierarchy. apply Forall_app. split.
  - unfold splitHierarchy. apply Forall_map, Forall_forall. intros h _.
    apply split_scan_not_nil.
  - apply Forall_map, Forall_forall. intros t _. discriminate.
Qed.

(** X8. Writing back what was read keeps the hierarchical strings.  For
    every entry and every separator, the HierarchicalSubject that
    [writeTags] builds from the normalizer's result is the entry's own
    hierarchicalSubject strings, unchanged and in order, followed by the
    flat names that survived; Subject and Keywords get one name per path.
    For a non-empty separator no name written is [undefined]. *)
Theorem read_then_write_keeps_hierarchy :
  (forall (entry : IMetadata) (separator : string),
      Payload.HierarchicalSubject
        (writeData {| hierarchicalSeparator := separator |}
           (convertMetadataToHierarchy entry separator))
      = coerce (HierarchicalSubject entry) ++ filteredTags entry separator)
  /\ (forall (entry : IMetadata) (c : ascii) (separator : string),
         ~ In None
             (Payload.Subject
                (writeData {| hierarchicalSeparator := String c separator |}
                   (convertMetadataToHierarchy entry
                      (String c separator))))).
Proof.
  split.
  - intros entry separator. unfold writeData.
    cbn [Payload.HierarchicalSubject hierarchicalSeparator].
    rewrite convertMetadataToHierarchy_coerce, map_app, !map_map.
    fold (splitHierarchy entry separator).
    rewrite <- splitHierarchy_coerce.
    change (filter _ (Set_from _)) with (filteredTags entry separator).
    f_equal.
    + rewrite <- (map_id (coerce _)) at 2. apply map_ext.
      intros s. apply join_split.
    + apply map_id.
  - intros entry c separator Hin. unfold writeData in Hin.
    cbn [Payload.Subject] in Hin.
    apply in_map_iff in Hin as [p [Hleaf Hp]].
    pose proof (result_paths_nonempty entry c separator) as Hall.
    rewrite Forall_forall in Hall.
    rewrite (leaf_last p "" (Hall p Hp)) in Hleaf. discriminate.
Qed.

(** X9. Normalizing again changes nothing.  Take a non-empty separator and
    an entry whose surviving flat names do not hold it, with a result that
    is not empty.  Writing the result and normalizing what was written, with
    the same separator, gives the same result once more, whatever the
    hierarchicalSubject strings are. *)
Theorem renormalize_fixed_point
        (ep : string -> Payload.t -> list string -> WriteReply)
        (entry : IMetadata) (c : ascii) (sep : string) (filepath : string) :
  Forall (fun t => includes t (String c sep) = false)
         (filteredTags entry (String c sep)) ->
  convertMetadataToHierarchy entry (String c sep) <> [] ->
  renormalize ep {| hierarchicalSeparator := String c sep |} filepath
    (convertMetadataToHierarchy entry (String c sep))
  = [Some (convertMetadataToHierarchy entry (String c sep))].
Proof.
  intros Hfree Hne.
  pose proof (result_paths_nonempty entry c sep) as Hpaths.
  assert (Hsplit :
            map (fun h => split (join (String c sep) h) (String c sep))
                (convertMetadataToHierarchy entry (String c sep))
            = convertMetadataToHierarchy entry (String c sep)).
  { unfold convertMetadataToHierarchy, splitHierarchy.
    rewrite map_app, !map_map. f_equal.
    - apply map_ext. intros h. apply split_join_split.
    - apply map_ext_in. intros t Ht. cbn [join].
      apply split_without.
      exact (proj1 (Forall_forall _ _) Hfree t Ht). }
  pose proof (normalize_written (String c sep) _ Hpaths Hsplit) as Hnorm.
  unfold renormalize.
  destruct (convertMetadataToHierarchy entry (String c sep)) as [| p ps];
    [congruence |].
  rewrite writes_writeTags. cbn [map snd hierarchicalSeparator].
  now rewrite Hnorm.
Qed.

(** X9 at an entry with a doubled separator and a flat name. *)
Lemma renormalize_fixed_point_witness :
  renormalize ep_ok {| hierarchicalSeparator := "|" |} "a.jpg"
    (convertMetadataToHierarchy
       {| HierarchicalSubject := JArray [JStr "A||B"];
          Subject := JScalar (JStr "C");
          Keywords := JUndefined |} "|")
  = [Some (convertMetadataToHierarchy
             {| HierarchicalSubject := JArray [JStr "A||B"];
                Subject := JScalar (JStr "C");
                Keywords := JUndefined |} "|")].
Proof.
  apply (renormalize_fixed_point ep_ok
           {| HierarchicalSubject := JArray [JStr "A||B"];
              Subject := JScalar (JStr "C");
              Keywords := JUndefined |} "|"%char "" "a.jpg").
  - repeat constructor.
  - discriminate.
Defined.

(** X10. Subject and Keywords are interchangeable up to order.  Swapping
    the two flat fields leaves the hierarchical paths of the result where
    they are and permutes the one-segment paths that follow them. *)
Theorem subject_keywords_swap (h s k : value) (separator : string) :
  exists flat flat' : list (list string),
    convertMetadataToHierarchy
      {| HierarchicalSubject := h; Subject := s; Keywords := k |} separator
    = map (fun x => split x separator) (coerce h) ++ flat
    /\ convertMetadataToHierarchy
         {| HierarchicalSubject := h; Subject := k; Keywords := s |} separator
       = map (fun x => split x separator) (coerce h) ++ flat'
    /\ Permutation flat flat'.
Proof.
  set (e := {| HierarchicalSubject := h; Subject := s; Keywords := k |}).
  set (e' := {| HierarchicalSubject := h; Subject := k; Keywords := s |}).
  exists (map (fun t => [t]) (filteredTags e separator)),
         (map (fun t => [t]) (filteredTags e' separator)).
  split; [| split].
  - unfold convertMetadataToHierarchy. now rewrite splitHierarchy_coerce.
  - unfold convertMetadataToHierarchy. now rewrite splitHierarchy_coerce.
  - apply Permutation_map, NoDup_Permutation;
      try apply filteredTags_NoDup.
    intros t. rewrite !filteredTags_In, !allPlainTags_In.
    rewrite !splitHierarchy_coerce. subst e e'. cbn. tauto.
Qed.

(* ================================================================== *)
(** ** The field deltas *)
(* ================================================================== *)

Section DeltaFacts.

(** [endsWith] holds exactly when the text is some prefix followed by the
    suffix. *)
Lemma endsWith_spec (s t : string) :
  endsWith s t = true <-> exists p, s = (p ++ t)%string.
Proof.
  split.
  - induction s as [| a s IH]; cbn [endsWith].
    + destruct (String.eqb_spec "" t) as [<- | _]; [| discriminate].
      intros _. now exists "".
    + destruct (String.eqb_spec (String a s) t) as [<- | _].
      * intros _. now exists "".
      * intros H. destruct (IH H) as [p ->]. now exists (String a p).
  - intros [p ->]. induction p as [| a p IH].
    + simpl. destruct t; cbn [endsWith]; now rewrite String.eqb_refl.
    + cbn [append endsWith]. rewrite IH.
      now destruct (String.eqb (String a (p ++ t)) t).
Qed.

Lemma error_endsWith_spec (res : WriteReply) (t : string) :
  error_endsWith res t = true
  <-> exists p, error res = Some (p ++ t)%string.
Proof.
  unfold error_endsWith. destruct (error res) as [e |].
  - rewrite endsWith_spec. split; intros [p H]; exists p; congruence.
  - split; [discriminate | intros [p H]; discriminate].
Qed.

Variable ep : string -> DeltaData -> list string -> WriteReply.

Lemma delta_writes_writeDelta (files : list string) (data : DeltaData) :
  delta_writes (writeDelta ep files data) = [(quoteFiles files, data)].
Proof.
  unfold writeDelta. cbn [delta_writes].
  now destruct (negb (error_endsWith _ _)).
Qed.

Lemma delta_failed_writeDelta (files : list string) (data : DeltaData) :
  delta_failed (writeDelta ep files data) = false
  <-> exists p,
      error (ep (quoteFiles files) data ["overwrite_original "])
      = Some (p ++ filesUpdated (List.length files))%string.
Proof.
  rewrite <- error_endsWith_spec. unfold writeDelta, delta_failed.
  cbn [existsb].
  destruct (error_endsWith _ _); cbn; split; congruence.
Qed.

End DeltaFacts.

(** X11. One write for each delta call.  [addTag], [removeTag] and
    [replaceTag] each issue exactly one write, addressed to the quoted file
    list, also when the file list is empty (the command is then the empty
    string): they have no guard like the one of [writeTags].  The one write
    of [replaceTag] carries what [removeTag] would write for the old path
    followed by what [addTag] would write for the new one. *)
Theorem delta_calls_write_once :
  (forall (ep : string -> DeltaData -> list string -> WriteReply)
          (files tagHierarchy : list string),
      delta_writes (addTag ep files tagHierarchy)
      = [(quoteFiles files, [("MyHS+", tagHierarchy)])]
      /\ delta_writes (removeTag ep files tagHierarchy)
         = [(quoteFiles files, [("MyHS-", tagHierarchy)])])
  /\ (forall (ep ep1 ep2 : string -> DeltaData -> list string -> WriteReply)
             (files old new : list string),
         exists d1 d2,
           delta_writes (removeTag ep1 files old) = [(quoteFiles files, d1)]
           /\ delta_writes (addTag ep2 files new) = [(quoteFiles files, d2)]
           /\ delta_writes (replaceTag ep files old new)
              = [(quoteFiles files, d1 ++ d2)])
  /\ quoteFiles [] = ""
  /\ (forall (ep : string -> Payload.t -> list string -> WriteReply)
             (this : ExifIO) (filepath : string),
         writes (writeTags ep this filepath []) = []).
Proof.
  split; [| split; [| split]].
  - intros ep files tagHierarchy. unfold addTag, removeTag.
    now rewrite !delta_writes_writeDelta.
  - intros ep ep1 ep2 files old new.
    exists [("MyHS-", old)], [("MyHS+", new)].
    unfold addTag, removeTag, replaceTag.
    now rewrite !delta_writes_writeDelta.
  - reflexivity.
  - reflexivity.
Qed.

(** X12. When an update counts as done.  A delta call on n files logs
    "Could not update file metadata" unless the reply's error text ends in
    the decimal of n followed by " image files updated"; any text may come
    before it, and a reply without error text is always logged as failed.
    [writeTags], on a non-empty path list, does the same with n = 1. *)
Theorem update_accepted :
  (forall (ep : string -> DeltaData -> list string -> WriteReply)
          (files old new : list string),
      delta_failed (replaceTag ep files old new) = false
      <-> exists p,
          error (ep (quoteFiles files) [("MyHS-", old); ("MyHS+", new)]
                    ["overwrite_original "])
          = Some (p ++ decimal (Z.of_nat (List.length files))
                    ++ " image files updated")%string)
  /\ (forall (ep : string -> DeltaData -> list string -> WriteReply)
             (files tagHierarchy : list string),
         (delta_failed (addTag ep files tagHierarchy) = false
          <-> exists p,
             error (ep (quoteFiles files) [("MyHS+", tagHierarchy)]
                       ["overwrite_original "])
             = Some (p ++ decimal (Z.of_nat (List.length files))
                       ++ " image files updated")%string)
         /\ (delta_failed (removeTag ep files tagHierarchy) = false
             <-> exists p,
                error (ep (quoteFiles files) [("MyHS-", tagHierarchy)]
                          ["overwrite_original "])
                = Some (p ++ decimal (Z.of_nat (List.length files))
                          ++ " image files updated")%string))
  /\ (forall (ep : string -> Payload.t -> list string -> WriteReply)
             (this : ExifIO) (filepath : string)
             (p : list string) (ps : list (list string)),
         write_failed (writeTags ep this filepath (p :: ps)) = false
         <-> exists pre,
             error (ep filepath (writeData this (p :: ps))
                       ["overwrite_original "])
             = Some (pre ++ "1 image files updated")%string).
Proof.
  split; [| split].
  - intros ep files old new. apply delta_failed_writeDelta.
  - intros ep files tagHierarchy. split; apply delta_failed_writeDelta.
  - intros ep this filepath p ps. rewrite <- error_endsWith_spec.
    unfold writeTags, write_failed. cbn [List.length].
    destruct (Z.eqb_spec (Z.of_nat (S (List.length ps))) 0) as [H | _];
      [lia |].
    cbn [app existsb].
    destruct (error_endsWith _ _); cbn; split; congruence.
Qed.

(** A name without a double quote is found again in front of the quote
    that closes it. *)
Lemma quoted_name_inj (f f' x y : string) :
  includes f dquote = false ->
  includes f' dquote = false ->
  (f ++ dquote ++ x)%string = (f' ++ dquote ++ y)%string ->
  f = f' /\ x = y.
Proof.
  unfold dquote. revert f'.
  induction f as [| a f IH]; intros [| a' f'] Hf Hf' Heq.
  - simpl in Heq. inversion Heq. now split.
  - cbn [includes] in Hf'. apply orb_false_elim in Hf' as [Hq _].
    rewrite prefix_one in Hq. simpl in Heq. inversion Heq; subst.
    now rewrite Ascii.eqb_refl in Hq.
  - cbn [includes] in Hf. apply orb_false_elim in Hf as [Hq _].
    rewrite prefix_one in Hq. simpl in Heq. inversion Heq; subst.
    now rewrite Ascii.eqb_refl in Hq.
  - cbn [includes] in Hf, Hf'.
    apply orb_false_elim in Hf as [_ Hf].
    apply orb_false_elim in Hf' as [_ Hf'].
    simpl in Heq. inversion Heq; subst.
    destruct (IH f' Hf Hf' H1) as [-> ->]. now split.
Qed.

Lemma quoteFiles_cons (f : string) (r : list string) :
  quoteFiles (f :: r)
  = (dquote ++ f ++ dquote
       ++ match r with
          | [] => ""
          | _ :: _ => " " ++ quoteFiles r
          end)%string.
Proof.
  unfold quoteFiles. destruct r as [| g r'].
  - cbn [map join]. now rewrite append_empty_r.
  - cbn [map]. rewrite join_cons by discriminate.
    now rewrite !append_assoc.
Qed.

(** X13. The command names the files given.  Two file lists whose names
    hold no double quote give the same command only when they are the same
    list. *)
Theorem quoteFiles_injective (files files' : list string) :
  Forall (fun f => includes f dquote = false) files ->
  Forall (fun f => includes f dquote = false) files' ->
  quoteFiles files = quoteFiles files' ->
  files = files'.
Proof.
  intros Hall. revert files'.
  induction Hall as [| f r Hf Hr IH]; intros files' Hall' Heq.
  - destruct files' as [| f' r']; [reflexivity |].
    rewrite quoteFiles_cons in Heq. discriminate Heq.
  - destruct Hall' as [| f' r' Hf' Hr'].
    + rewrite quoteFiles_cons in Heq. discriminate Heq.
    + rewrite !quoteFiles_cons in Heq.
      unfold dquote at 1 3 in Heq. cbn [append] in Heq.
      inversion Heq as [Heq']. clear Heq.
      apply quoted_name_inj in Heq' as [-> Htail]; try assumption.
      f_equal.
      destruct r as [| g r1]; destruct r' as [| g' r1'];
        try reflexivity; try discriminate Htail.
      apply IH; [assumption |]. now inversion Htail.
Qed.

(** X13 at two files. *)
Lemma quoteFiles_injective_witness : ["a.jpg"; "b c.png"] = ["a.jpg"; "b c.png"].
Proof.
  apply (quoteFiles_injective ["a.jpg"; "b c.png"] ["a.jpg"; "b c.png"]).
  - repeat constructor.
  - repeat constructor.
  - reflexivity.
Defined.

(** Names are not escaped: one file whose name holds two double quotes and
    two plain files give the same command. *)
Lemma quoteFiles_not_escaped :
  quoteFiles [("a" ++ dquote ++ " " ++ dquote ++ "b")%string]
  = quoteFiles ["a"; "b"].
Proof. reflexivity. Qed.

(* ================================================================== *)
(** ** The process *)
(* ================================================================== *)

(** X14. Opening and closing once.  Suppose the library's [open] leaves
    the process flagged open and its [close] leaves it flagged closed.  Then
    after [initialize] the process is open and a further [initialize] calls
    nothing and logs nothing; after [close] it is not open and a further
    [close] calls nothing; and [initialize] calls [open] only on a process
    that is not open, [close] calls [close] only on one that is. *)
Theorem initialize_and_close_once
        (ep_open : Process -> Process * Z) (ep_close : Process -> Process)
        (ep : Process) :
  (forall p, open_flag (fst (ep_open p)) = true) ->
  (forall p, open_flag (ep_close p) = false) ->
  isOpen (fst (initialize ep_open ep)) = true
  /\ initialize ep_open (fst (initialize ep_open ep))
     = (fst (initialize ep_open ep), [])
  /\ isOpen (fst (close ep_close ep)) = false
  /\ close ep_close (fst (close ep_close ep))
     = (fst (close ep_close ep), [])
  /\ (In EpOpen (snd (initialize ep_open ep)) <-> isOpen ep = false)
  /\ (In EpClose (snd (close ep_close ep)) <-> isOpen ep = true).
Proof.
  intros Hopen Hclose. unfold isOpen, initialize, close.
  rewrite !orb_false_r.
  destruct (open_flag ep) eqn:Hflag.
  - cbn [fst snd]. rewrite Hflag, Hclose.
    repeat split; simpl; intros; try reflexivity; try discriminate;
      intuition discriminate.
  - specialize (Hopen ep). destruct (ep_open ep) as [ep' pid].
    cbn [fst snd] in *. rewrite Hopen, Hflag.
    repeat split; simpl; intros; try reflexivity; try discriminate;
      intuition discriminate.
Qed.

(** X14 at a process never opened and a library that sets the flag. *)
Lemma initialize_and_close_once_witness :
  isOpen
    (fst (initialize (fun _ => ({| _open := Some true |}, 4242%Z))
            {| _open := None |}))
  = true.
Proof.
  apply (initialize_and_close_once
           (fun _ => ({| _open := Some true |}, 4242%Z))
           (fun _ => {| _open := Some false |})
           {| _open := None |}).
  - reflexivity.
  - reflexivity.
Defined.

(* ================================================================== *)
(** ** Segments and the separator *)
(* ================================================================== *)

Section SegmentFacts.

Lemma prefix_append (t s u : string) :
  prefix t s = true -> prefix t (s ++ u)%string = true.
Proof.
  revert s. induction t as [| a t IH]; intros s Hp;
    [destruct s, u; reflexivity |].
  destruct s as [| b s]; [discriminate |].
  simpl in Hp |- *. destruct (ascii_dec a b); [now apply IH | discriminate].
Qed.

Lemma includes_occurrence (s t : string) :
  includes s t = true ->
  exists pre post, s = (pre ++ post)%string /\ prefix t post = true.
Proof.
  induction s as [| a s IH]; cbn [includes]; intros H.
  - rewrite orb_false_r in H. now exists "", "".
  - apply orb_true_iff in H as [H | H].
    + now exists "", (String a s).
    + destruct (IH H) as [pre [post [-> Hp]]].
      now exists (String a pre), post.
Qed.

Lemma snoc_suffix (cur pre post' : string) (a : ascii) :
  (cur ++ String a "")%string = (pre ++ post')%string ->
  post' <> "" ->
  exists post,
    post' = (post ++ String a "")%string /\ cur = (pre ++ post)%string.
Proof.
  revert pre. induction cur as [| b cur IH]; intros pre Heq Hne.
  - destruct pre as [| b' pre'].
    + simpl in Heq. subst post'. now exists "".
    + simpl in Heq. inversion Heq as [[Hb Hrest]].
      destruct pre'; destruct post'; try discriminate. congruence.
  - destruct pre as [| b' pre'].
    + simpl in Heq. subst post'. now exists (String b cur).
    + simpl in Heq. inversion Heq as [[Hb Hrest]].
      destruct (IH pre' Hrest Hne) as [post [-> ->]]. now exists post.
Qed.

Variable a : ascii.
Variable t : string.

Lemma no_match_before_empty (s : string) : no_match_before (String a t) "" s.
Proof.
  intros pre post Heq Hne. destruct pre; destruct post; try discriminate.
  congruence.
Qed.

Lemma no_match_before_includes (cur s : string) :
  no_match_before (String a t) cur s -> includes cur (String a t) = false.
Proof.
  intros Hq. destruct (includes cur (String a t)) eqn:Hinc; [| reflexivity].
  apply includes_occurrence in Hinc as [pre [post [Heq Hp]]].
  assert (Hne : post <> "") by (intros ->; discriminate Hp).
  pose proof (Hq pre post Heq Hne) as Hfalse.
  rewrite (prefix_append _ _ s Hp) in Hfalse. discriminate.
Qed.

Lemma no_match_before_step (cur s : string) (c : ascii) :
  no_match_before (String a t) cur (String c s) ->
  prefix (String a t) (String c s) = false ->
  no_match_before (String a t) (cur ++ String c "") s.
Proof.
  intros Hq Hp pre post' Heq Hne.
  destruct (snoc_suffix _ _ _ _ Heq Hne) as [post [-> ->]].
  rewrite append_assoc. cbn [append].
  destruct post as [| b post]; [exact Hp |].
  apply (Hq pre (String b post)); [reflexivity | discriminate].
Qed.

Lemma split_scan_segments (s : string) (skip : nat) (cur : string) :
  (skip = 0 -> no_match_before (String a t) cur s) ->
  (skip <> 0 -> cur = "") ->
  Forall (fun seg => includes seg (String a t) = false)
         (split_scan (String a t) skip cur s).
Proof.
  revert skip cur. induction s as [| c s IH]; intros skip cur H0 Hk.
  - cbn [split_scan]. constructor; [| constructor].
    destruct skip as [| k].
    + now apply (no_match_before_includes cur "" (H0 eq_refl)).
    + now rewrite Hk.
  - cbn [split_scan]. destruct skip as [| k].
    + specialize (H0 eq_refl).
      destruct (prefix (String a t) (String c s)) eqn:Hp.
      * constructor; [now apply (no_match_before_includes _ _ H0) |].
        apply IH; [intros _; apply no_match_before_empty | reflexivity].
      * apply IH; [| congruence].
        intros _. now apply no_match_before_step.
    + rewrite Hk by discriminate.
      apply IH; [intros _; apply no_match_before_empty | reflexivity].
Qed.

Lemma split_segments (s : string) :
  Forall (fun seg => includes seg (String a t) = false)
         (split s (String a t)).
Proof.
  unfold split. apply split_scan_segments; [| congruence].
  intros _. apply no_match_before_empty.
Qed.

End SegmentFacts.

(** X15. Where the separator can still occur.  For a non-empty separator,
    every path of the result either has no segment that holds the
    separator, or is the one-segment path of a flat name from Subject or
    Keywords. *)
Theorem separator_only_in_flat_names
        (entry : IMetadata) (c : ascii) (sep : string) (p : list string) :
  In p (convertMetadataToHierarchy entry (String c sep)) ->
  Forall (fun seg => includes seg (String c sep) = false) p
  \/ exists t, p = [t]
               /\ (In t (coerce (Subject entry))
                   \/ In t (coerce (Keywords entry))).
Proof.
  unfold convertMetadataToHierarchy. intros Hp.
  apply in_app_or in Hp as [Hp | Hp].
  - left. unfold splitHierarchy in Hp. apply in_map_iff in Hp as [h [<- _]].
    apply split_segments.
  - right. apply in_map_iff in Hp as [t [<- Ht]]. exists t.
    split; [reflexivity |].
    apply filteredTags_In in Ht as [Ht _]. now apply allPlainTags_In.
Qed.

(** X15 at a hierarchical path beside a flat name that holds the
    separator. *)
Lemma separator_only_in_flat_names_witness :
  Forall (fun seg => includes seg "|" = false) ["A"; ""; "B"]
  \/ exists t, ["A"; ""; "B"] = [t]
               /\ (In t (coerce (JScalar (JStr "C|D")))
                   \/ In t (coerce JUndefined)).
Proof.
  apply (separator_only_in_flat_names
           {| HierarchicalSubject := JArray [JStr "A||B"];
              Subject := JScalar (JStr "C|D");
              Keywords := JUndefined |} "|"%char "" ["A"; ""; "B"]).
  left. reflexivity.
Defined.
